(** * Minimal Arithmetic Noise Padding (MANP) analysis of the HLFHE dialect

    A shallow embedding of the analysis pass (the file that defines
    [MANPLatticeValue], the [APIntWidthExtend*] helpers, the [getSqMANP]
    rules and [MANPAnalysis::visitOperation]) together with the properties
    its specification states about it.

    Conventions of the embedding
    - [llvm::APInt] is a record of a bit width and an unsigned value; every
      operation of the LLVM class that the pass calls is written out with its
      wrap-around modulo [2 ^ BitWidth] and with the assertions LLVM makes.
    - Assertions are enabled and a failed [assert] aborts the program:
      fallible code returns [result], whose second constructor carries the
      text of the failed assertion.
    - C++ [unsigned] arithmetic on bit widths is written with its wrap-around
      modulo [2 ^ 32] ([u32]); [uint64_t] arithmetic modulo [2 ^ 64] ([u64]).
    - [llvm::APInt::sqrt] is library code whose result is the integer square
      root up to the rounding LLVM applies; the pass is embedded over any
      function [isqrt] and verified for every [isqrt] that returns the
      truncated root or its successor (never the successor at a perfect
      square), which covers truncation and rounding to nearest alike. *)

From Stdlib Require Import ZArith Lia.
From stdpp Require Import base option list gmap strings pretty.

Local Open Scope Z_scope.

(** ** Programs that may abort

    [Abort msg] is the end of the process on a failed [assert], with the text
    of the assertion (or, for an assertion without text, its condition). *)

Inductive result (A : Type) : Type :=
  | Ok (a : A)
  | Abort (msg : string).
Arguments Ok {A} a.
Arguments Abort {A} msg.

#[global] Instance result_ret : MRet result := fun A a => Ok a.
#[global] Instance result_bind : MBind result := fun A B f m =>
  match m with
  | Ok a => f a
  | Abort msg => Abort msg
  end.

#[global] Instance result_fmap : FMap result := fun A B f m =>
  match m with
  | Ok a => Ok (f a)
  | Abort msg => Abort msg
  end.

(** [assert(c && "msg")] *)
Definition assert (c : bool) (msg : string) : result unit :=
  if c then Ok tt else Abort msg.

(** ** Machine arithmetic of the host *)

(** [std::numeric_limits<unsigned>::max()] *)
Definition UINT_MAX : Z := 4294967295.
(** [std::numeric_limits<int64_t>::max()] *)
Definition INT64_MAX : Z := 9223372036854775807.

(** Wrap-around of [unsigned] and of [uint64_t]. *)
Definition u32 (x : Z) : Z := x mod 2 ^ 32.
Definition u64 (x : Z) : Z := x mod 2 ^ 64.

(** ** [llvm::APInt] *)

Module APInt.

Record t : Type := mk { BitWidth : Z; VAL : Z }.

(** The class invariant: a positive width that fits [unsigned], and a value
    with no bit set beyond the width. *)
Definition valid (a : t) : Prop :=
  0 < BitWidth a <= UINT_MAX /\ 0 <= VAL a < 2 ^ BitWidth a.

(** [APInt(numBits, val, isSigned = false)]: the unused high bits of [val]
    are cleared. *)
Definition make (numBits val : Z) : result t :=
  _ ← assert (0 <? numBits) "bitwidth too small";
  mret (mk numBits (val mod 2 ^ numBits)).

(** [APInt::zext(width)] *)
Definition zext (a : t) (width : Z) : result t :=
  _ ← assert (BitWidth a <? width) "Invalid APInt ZeroExtend request";
  mret (mk width (VAL a)).

(** [operator+] *)
Definition add (a b : t) : result t :=
  _ ← assert (BitWidth a =? BitWidth b) "Bit widths must be the same";
  mret (mk (BitWidth a) ((VAL a + VAL b) mod 2 ^ BitWidth a)).

(** [operator*] *)
Definition mul (a b : t) : result t :=
  _ ← assert (BitWidth a =? BitWidth b) "Bit widths must be the same";
  mret (mk (BitWidth a) ((VAL a * VAL b) mod 2 ^ BitWidth a)).

(** [APInt::ult] *)
Definition ult (a b : t) : result bool :=
  _ ← assert (BitWidth a =? BitWidth b) "Bit widths must be the same for comparison";
  mret (VAL a <? VAL b).

(** [operator<<=(unsigned)] *)
Definition shl (a : t) (shiftAmt : Z) : result t :=
  _ ← assert (shiftAmt <=? BitWidth a) "Invalid shift amount";
  mret (mk (BitWidth a) (Z.shiftl (VAL a) shiftAmt mod 2 ^ BitWidth a)).

(** [APInt::getMaxValue(numBits)]: all bits set. *)
Definition getMaxValue (numBits : Z) : result t :=
  _ ← assert (0 <? numBits) "bitwidth too small";
  mret (mk numBits (Z.ones numBits)).

End APInt.

(** Two integer square roots: the truncated root, and the root rounded to
    the nearest integer (the rounding of LLVM's small-value table). *)
Definition isqrt_floor (v : Z) : Z := Z.sqrt v.

Definition isqrt_nearest (v : Z) : Z :=
  let s := Z.sqrt v in
  if v - s * s <=? s then s else s + 1.

(** What the pass needs of the square root: the truncated root or its
    successor, and the truncated root at a perfect square. *)
Definition isqrt_sound (isqrt : Z -> Z) : Prop :=
  forall v, 0 <= v ->
    isqrt v = Z.sqrt v \/ (isqrt v = Z.sqrt v + 1 /\ Z.sqrt v * Z.sqrt v < v).

(** ** The program graph (MLIR) as the pass reads it *)

Inductive SignednessSemantics : Type := Signless | Signed | Unsigned.

Inductive MlirType : Type :=
  | IntegerType (width : Z) (signedness : SignednessSemantics)
  | EncryptedIntegerType (width : Z)
  | RankedTensorType (shape : list Z) (elementType : MlirType)
  | UnrankedTensorType (elementType : MlirType)
  | OtherType.

Definition isSignlessInteger (t : MlirType) : bool :=
  match t with IntegerType _ Signless => true | _ => false end.

Definition isa_EncryptedIntegerType (t : MlirType) : bool :=
  match t with EncryptedIntegerType _ => true | _ => false end.

Definition isa_TensorType (t : MlirType) : bool :=
  match t with RankedTensorType _ _ | UnrankedTensorType _ => true | _ => false end.

(** [t.dyn_cast_or_null<mlir::TensorType>()] *)
Definition dyn_cast_TensorType (t : MlirType) : option MlirType :=
  if isa_TensorType t then Some t else None.

(** [t.cast<mlir::TensorType>().getElementType()] *)
Definition getElementType (t : MlirType) : result MlirType :=
  match t with
  | RankedTensorType _ e | UnrankedTensorType e => Ok e
  | _ => Abort "cast<Ty>() argument of incompatible type!"
  end.

(** [ShapedType::kDynamicSize] *)
Definition kDynamicSize : Z := -1.

Definition hasStaticShape (t : MlirType) : bool :=
  match t with
  | RankedTensorType shape _ => forallb (fun d => negb (d =? kDynamicSize)) shape
  | _ => false
  end.

Definition getRank (t : MlirType) : result Z :=
  match t with
  | RankedTensorType shape _ => Ok (Z.of_nat (length shape))
  | _ => Abort "cannot query rank of unranked shaped type"
  end.

Definition getNumElements (t : MlirType) : result Z :=
  _ ← assert (hasStaticShape t) "cannot get element count of dynamic shaped type";
  match t with
  | RankedTensorType shape _ => Ok (fold_left Z.mul shape 1)
  | _ => Abort "cannot get element count of dynamic shaped type"
  end.

Definition getIntOrFloatBitWidth (t : MlirType) : result Z :=
  match t with
  | IntegerType width _ => Ok width
  | _ => Abort "only integers and floats have a bitwidth"
  end.

Definition getElementTypeBitWidth (t : MlirType) : result Z :=
  e ← getElementType t; getIntOrFloatBitWidth e.

Inductive Attribute : Type :=
  | IntegerAttr (type : MlirType) (value : APInt.t)
  | DenseIntElementsAttr (type : MlirType) (values : list APInt.t)
  | OtherAttr.

(** The operation classes the pass tells apart, by [llvm::dyn_cast] and
    [llvm::isa] on the operation and on its dialect. *)
Inductive OpName : Type :=
  | HLFHE_Dot
  | HLFHE_AddEintIntOp
  | HLFHE_AddEintOp
  | HLFHE_SubIntEintOp
  | HLFHE_MulEintIntOp
  | HLFHE_ZeroEintOp
  | HLFHE_ApplyLookupTableEintOp
  | HLFHE_other (mnemonic : string)   (* any other operation of the HLFHE dialect *)
  | Std_ConstantOp
  | Other_op (name : string).         (* an operation of any other dialect *)

Inductive Dialect : Type := HLFHEDialect | StandardOpsDialect | OtherDialect.

Definition getDialect (n : OpName) : Dialect :=
  match n with
  | HLFHE_Dot | HLFHE_AddEintIntOp | HLFHE_AddEintOp | HLFHE_SubIntEintOp
  | HLFHE_MulEintIntOp | HLFHE_ZeroEintOp | HLFHE_ApplyLookupTableEintOp
  | HLFHE_other _ => HLFHEDialect
  | Std_ConstantOp => StandardOpsDialect
  | Other_op _ => OtherDialect
  end.

Definition isa_HLFHEDialect (d : Dialect) : bool :=
  match d with HLFHEDialect => true | _ => false end.

(** An operation with its result 0 (the data-flow framework hands the pass
    only operations that have results), and a value: a block argument or the
    result of an operation. [opId] stands for the identity of the operation
    (its address in the C++ program). *)
Inductive Operation : Type :=
  | mkOperation (opId : nat) (name : OpName) (operands : list Value)
                (attrs : list (string * Attribute)) (resultType : MlirType)
with Value : Type :=
  | BlockArgument (type : MlirType) (argNumber : nat)
  | OpResult (owner : Operation).

Definition opId (op : Operation) : nat :=
  match op with mkOperation i _ _ _ _ => i end.
Definition opName (op : Operation) : OpName :=
  match op with mkOperation _ n _ _ _ => n end.
Definition getOperands (op : Operation) : list Value :=
  match op with mkOperation _ _ os _ _ => os end.
Definition getAttrs (op : Operation) : list (string * Attribute) :=
  match op with mkOperation _ _ _ a _ => a end.
Definition resultType (op : Operation) : MlirType :=
  match op with mkOperation _ _ _ _ t => t end.

(** [op->getOpOperand(idx).get()] *)
Definition getOpOperand (op : Operation) (idx : nat) : result Value :=
  match getOperands op !! idx with
  | Some v => Ok v
  | None => Abort "invalid operand index"
  end.

Definition isa_BlockArgument (v : Value) : bool :=
  match v with BlockArgument _ _ => true | OpResult _ => false end.

Definition getType (v : Value) : MlirType :=
  match v with
  | BlockArgument t _ => t
  | OpResult owner => resultType owner
  end.

Definition getDefiningOp (v : Value) : option Operation :=
  match v with
  | BlockArgument _ _ => None
  | OpResult owner => Some owner
  end.

(** [llvm::dyn_cast_or_null<mlir::ConstantOp>(o)] *)
Definition dyn_cast_or_null_ConstantOp (o : option Operation) : option Operation :=
  match o with
  | Some op => match opName op with Std_ConstantOp => Some op | _ => None end
  | None => None
  end.

Fixpoint getAttr (attrs : list (string * Attribute)) (name : string) : option Attribute :=
  match attrs with
  | [] => None
  | (n, a) :: rest => if String.eqb n name then Some a else getAttr rest name
  end.

(** [op->getAttrOfType<mlir::IntegerAttr>(name)] and
    [op->getAttrOfType<mlir::DenseIntElementsAttr>(name)]; [None] is the null
    attribute. *)
Definition getAttrOfType_IntegerAttr (op : Operation) (name : string) : option APInt.t :=
  match getAttr (getAttrs op) name with
  | Some (IntegerAttr _ v) => Some v
  | _ => None
  end.

Definition getAttrOfType_DenseIntElementsAttr (op : Operation) (name : string)
  : option (list APInt.t) :=
  match getAttr (getAttrs op) name with
  | Some (DenseIntElementsAttr _ vs) => Some vs
  | _ => None
  end.

(** ** The lattice value of the analysis *)

Record MANPLatticeValue : Type := mkMANPLatticeValue { getMANP : option APInt.t }.

(** [MANPLatticeValue::getPessimisticValueState(mlir::Value)] *)
Definition getPessimisticValueState (value : Value) : result MANPLatticeValue :=
  if isa_BlockArgument value
     && (isa_EncryptedIntegerType (getType value)
         || (isa_TensorType (getType value)
             && match getElementType (getType value) with
                | Ok e => isa_EncryptedIntegerType e
                | Abort _ => false
                end))
  then one ← APInt.make 1 1; mret (mkMANPLatticeValue (Some one))
  else mret (mkMANPLatticeValue None).

(** [MANPLatticeValue::join] *)
Definition MANPLatticeValue_join (lhs rhs : MANPLatticeValue) : result MANPLatticeValue :=
  _ ← assert false
        "Minimal Arithmetic Noise Padding values can only be combined sensibly when the combining operation is known";
  mret (mkMANPLatticeValue None).

(** [operandMANPs[i]->getValue().getMANP()] *)
Definition operandMANP (operandMANPs : list MANPLatticeValue) (i : nat) : option APInt.t :=
  v ← operandMANPs !! i; getMANP v.

(** [getValue()] of an [llvm::Optional], and of an attribute handle that
    may be null. *)
Definition getValue {A} (o : option A) : result A :=
  match o with
  | Some a => Ok a
  | None => Abort "getValue() of an empty value"
  end.

Section MANP.

(** The integer square root behind [llvm::APInt::sqrt]. *)
Variable isqrt : Z -> Z.

(** [APInt::sqrt]: the result has the width of the operand. *)
Definition APInt_sqrt (i : APInt.t) : APInt.t :=
  APInt.mk (APInt.BitWidth i) (isqrt (APInt.VAL i) mod 2 ^ APInt.BitWidth i).

(** ** Width-extending arithmetic of the pass *)

Definition APIntWidthExtendULT (lhs rhs : APInt.t) : result bool :=
  if APInt.BitWidth lhs <? APInt.BitWidth rhs then
    l ← APInt.zext lhs (APInt.BitWidth rhs); APInt.ult l rhs
  else if APInt.BitWidth lhs >? APInt.BitWidth rhs then
    r ← APInt.zext rhs (APInt.BitWidth lhs); APInt.ult lhs r
  else
    APInt.ult lhs rhs.

Definition APIntWidthExtendUAdd (lhs rhs : APInt.t) : result APInt.t :=
  let maxBits := Z.max (APInt.BitWidth lhs) (APInt.BitWidth rhs) in
  _ ← assert (u32 (UINT_MAX - maxBits) >? 1)
        "std::numeric_limits<unsigned>::max() - maxBits > 1";
  let targetWidth := u32 (maxBits + 1) in
  l ← APInt.zext lhs targetWidth;
  r ← APInt.zext rhs targetWidth;
  APInt.add l r.

Definition APIntWidthExtendUMul (lhs rhs : APInt.t) : result APInt.t :=
  _ ← assert (u32 (UINT_MAX - Z.max (APInt.BitWidth lhs) (APInt.BitWidth rhs))
                >? Z.min (APInt.BitWidth lhs) (APInt.BitWidth rhs))
        "Required number of bits cannot be represented with an APInt";
  let targetWidth := u32 (APInt.BitWidth lhs + APInt.BitWidth rhs) in
  l ← APInt.zext lhs targetWidth;
  r ← APInt.zext rhs targetWidth;
  APInt.mul l r.

Definition APIntWidthExtendUSq (i : APInt.t) : result APInt.t :=
  _ ← assert (APInt.BitWidth i <? UINT_MAX / 2)
        "Required number of bits cannot be represented with an APInt";
  ie ← APInt.zext i (u32 (2 * APInt.BitWidth i));
  APInt.mul ie ie.

Definition APIntCeilSqrt (i : APInt.t) : result APInt.t :=
  let res := APInt_sqrt i in
  resSq ← APIntWidthExtendUSq res;
  lt ← APIntWidthExtendULT resSq i;
  if (lt : bool) then
    one ← APInt.make 1 1;
    APIntWidthExtendUAdd res one
  else
    mret res.

(** ** Norms of plaintext operands *)

(** The loop of [denseCstTensorNorm2Sq] over [denseVals.getIntValues()]. *)
Fixpoint denseCstTensorNorm2Sq_loop (vals : list APInt.t) (accu : APInt.t)
  : result APInt.t :=
  match vals with
  | [] => mret accu
  | val :: rest =>
      valSq ← APIntWidthExtendUSq val;
      accu' ← APIntWidthExtendUAdd accu valSq;
      denseCstTensorNorm2Sq_loop rest accu'
  end.

Definition denseCstTensorNorm2Sq (cstOp : Operation) : result APInt.t :=
  let denseVals := getAttrOfType_DenseIntElementsAttr cstOp "value" in
  _ ← assert (bool_decide (is_Some denseVals) && isa_TensorType (resultType cstOp))
        "Constant must be a tensor initialized with `dense`";
  elementType ← getElementType (resultType cstOp);
  _ ← assert (isSignlessInteger elementType)
        "Can only handle tensors with signless integer elements";
  accu ← APInt.make 1 0;
  vals ← getValue denseVals;
  denseCstTensorNorm2Sq_loop vals accu.

(** The loop [while (tmp >>= 1) log2++] of [ceilLog2<uint64_t>]; a 64-bit
    value is zero after at most 64 shifts, so 64 rounds always end it. *)
Fixpoint ceilLog2_while (rounds : nat) (tmp log2 : Z) : Z :=
  match rounds with
  | O => log2
  | S rounds' =>
      let tmp' := Z.shiftr tmp 1 in
      if tmp' =? 0 then log2 else ceilLog2_while rounds' tmp' (u64 (log2 + 1))
  end.

Definition ceilLog2 (v : Z) : Z :=
  let log2 := ceilLog2_while 64 v 0 in
  if Z.land v (u64 (Z.lnot (u64 (Z.shiftl 1 log2)))) =? 0
  then log2
  else u64 (log2 + 1).

Definition denseDynTensorNorm2Sq (tTy : option MlirType) : result APInt.t :=
  match tTy with
  | None =>
      Abort "Plaintext operand must be a statically shaped 1D tensor of integers"
  | Some tTy =>
      _ ← assert (match getElementType tTy with
                  | Ok e => isSignlessInteger e
                  | Abort _ => false
                  end
                  && hasStaticShape tTy
                  && match getRank tTy with
                     | Ok r => r =? 1
                     | Abort _ => false
                     end)
            "Plaintext operand must be a statically shaped 1D tensor of integers";
      _ ← assert (UINT_MAX >? 8 * 8)
            "std::numeric_limits<unsigned>::max() > 8 * sizeof(uint64_t)";
      elWidth ← getElementTypeBitWidth tTy;
      maxVal ← APInt.getMaxValue elWidth;
      maxValSq ← APIntWidthExtendUSq maxVal;
      n ← getNumElements tTy;
      let nElts := u64 n in
      _ ← assert (u64 (INT64_MAX - nElts) >? 1)
            "std::numeric_limits<int64_t>::max() - nElts > 1";
      let nEltsBits := u32 (ceilLog2 (u64 (nElts + 1))) in
      nEltsAP ← APInt.make nEltsBits nElts;
      APIntWidthExtendUMul maxValSq nEltsAP
  end.

Definition conservativeIntNorm2Sq (t : MlirType) : result APInt.t :=
  _ ← assert (isSignlessInteger t) "Type must be a signless integer type";
  w ← getIntOrFloatBitWidth t;
  _ ← assert (u32 (UINT_MAX - w) >? 1)
        "std::numeric_limits<unsigned>::max() - t.getIntOrFloatBitWidth() > 1";
  maxVal ← APInt.make (u32 (w + 1)) 1;
  maxVal ← APInt.shl maxVal w;
  APIntWidthExtendUSq maxVal.

(** ** The rules [getSqMANP], one per operation class *)

Definition getSqMANP_Dot (op : Operation) (operandMANPs : list MANPLatticeValue)
  : result APInt.t :=
  v0 ← getOpOperand op 0;
  _ ← assert (isa_BlockArgument v0)
        "Only dot operations with tensors that are function arguments are currently supported";
  v1 ← getOpOperand op 1;
  match dyn_cast_or_null_ConstantOp (getDefiningOp v1) with
  | Some cstOp => denseCstTensorNorm2Sq cstOp
  | None => denseDynTensorNorm2Sq (dyn_cast_TensorType (getType v1))
  end.

Definition getSqMANP_AddEintIntOp (op : Operation)
    (operandMANPs : list MANPLatticeValue) : result APInt.t :=
  v1 ← getOpOperand op 1;
  let iTy := getType v1 in
  _ ← assert (isSignlessInteger iTy)
        "Only additions with signless integers are currently allowed";
  _ ← assert ((length operandMANPs =? 2)%nat
              && bool_decide (is_Some (operandMANP operandMANPs 0)))
        "Missing squared Minimal Arithmetic Noise Padding for encrypted operand";
  eNorm ← getValue (operandMANP operandMANPs 0);
  sqNorm ← match dyn_cast_or_null_ConstantOp (getDefiningOp v1) with
           | Some cstOp =>
               attr ← getValue (getAttrOfType_IntegerAttr cstOp "value");
               APIntWidthExtendUSq attr
           | None => conservativeIntNorm2Sq iTy
           end;
  APIntWidthExtendUAdd sqNorm eNorm.

Definition getSqMANP_AddEintOp (op : Operation)
    (operandMANPs : list MANPLatticeValue) : result APInt.t :=
  _ ← assert ((length operandMANPs =? 2)%nat
              && bool_decide (is_Some (operandMANP operandMANPs 0))
              && bool_decide (is_Some (operandMANP operandMANPs 1)))
        "Missing squared Minimal Arithmetic Noise Padding for encrypted operands";
  a ← getValue (operandMANP operandMANPs 0);
  b ← getValue (operandMANP operandMANPs 1);
  APIntWidthExtendUAdd a b.

Definition getSqMANP_SubIntEintOp (op : Operation)
    (operandMANPs : list MANPLatticeValue) : result APInt.t :=
  v0 ← getOpOperand op 0;
  let iTy := getType v0 in
  _ ← assert (isSignlessInteger iTy)
        "Only subtractions with signless integers are currently allowed";
  _ ← assert ((length operandMANPs =? 2)%nat
              && bool_decide (is_Some (operandMANP operandMANPs 1)))
        "Missing squared Minimal Arithmetic Noise Padding for encrypted operand";
  eNorm ← getValue (operandMANP operandMANPs 1);
  sqNorm ← match dyn_cast_or_null_ConstantOp (getDefiningOp v0) with
           | Some cstOp =>
               attr ← getValue (getAttrOfType_IntegerAttr cstOp "value");
               APIntWidthExtendUSq attr
           | None => conservativeIntNorm2Sq iTy
           end;
  APIntWidthExtendUAdd sqNorm eNorm.

Definition getSqMANP_MulEintIntOp (op : Operation)
    (operandMANPs : list MANPLatticeValue) : result APInt.t :=
  v1 ← getOpOperand op 1;
  let iTy := getType v1 in
  _ ← assert (isSignlessInteger iTy)
        "Only multiplications with signless integers are currently allowed";
  _ ← assert ((length operandMANPs =? 2)%nat
              && bool_decide (is_Some (operandMANP operandMANPs 0)))
        "Missing squared Minimal Arithmetic Noise Padding for encrypted operand";
  eNorm ← getValue (operandMANP operandMANPs 0);
  sqNorm ← match dyn_cast_or_null_ConstantOp (getDefiningOp v1) with
           | Some cstOp =>
               attr ← getValue (getAttrOfType_IntegerAttr cstOp "value");
               APIntWidthExtendUSq attr
           | None => conservativeIntNorm2Sq iTy
           end;
  APIntWidthExtendUMul sqNorm eNorm.

(** ** The transfer function of the analysis *)

Inductive ChangeResult : Type := NoChange | Change.

Inductive Severity : Type := DiagError | DiagRemark.

(** A diagnostic is emitted on an operation ([op->emitError], [op->emitRemark])
    and names it. *)
Record Diagnostic : Type := mkDiagnostic {
  diagSeverity : Severity;
  diagOp : Operation;
  diagMessage : string
}.

(** What a visit reads and writes besides its arguments: the lattice elements
    of the results (absent = uninitialized), the attributes set on operations
    (the annotation map, keyed by operation and attribute name) and the
    diagnostics emitted so far. *)
Record AnalysisState : Type := mkAnalysisState {
  latticeElements : gmap nat MANPLatticeValue;
  setAttrs : gmap (nat * string) Attribute;
  diagnostics : list Diagnostic
}.

Definition emit (sev : Severity) (op : Operation) (msg : string)
    (st : AnalysisState) : AnalysisState :=
  mkAnalysisState (latticeElements st) (setAttrs st)
                  (diagnostics st ++ [mkDiagnostic sev op msg]).

Definition setAttr (op : Operation) (name : string) (a : Attribute)
    (st : AnalysisState) : AnalysisState :=
  mkAnalysisState (latticeElements st) (<[(opId op, name) := a]> (setAttrs st))
                  (diagnostics st).

(** [latticeRes.join(v)] for the lattice element of result 0 of [op]: an
    uninitialized element takes [v]; an initialized one is combined by
    [MANPLatticeValue::join]. *)
Definition LatticeElement_join (op : Operation) (v : MANPLatticeValue)
    (st : AnalysisState) : result AnalysisState :=
  match latticeElements st !! opId op with
  | None =>
      mret (mkAnalysisState (<[opId op := v]> (latticeElements st))
                            (setAttrs st) (diagnostics st))
  | Some cur =>
      newValue ← MANPLatticeValue_join cur v;
      mret (mkAnalysisState (<[opId op := newValue]> (latticeElements st))
                            (setAttrs st) (diagnostics st))
  end.

(** [APIntToStringValUnsigned] *)
Definition APIntToStringValUnsigned (i : APInt.t) : string := pretty (APInt.VAL i).

(** [MANPAnalysis::visitOperation]. The chain of [dyn_cast]/[isa] tests
    selects the rule: [Some n] is [norm2SqEquiv = n] with [isDummy] false,
    [None] is [isDummy] true. The state is returned beside the outcome: an
    abort keeps the diagnostics emitted before it. *)
Definition visitOperation (debug : bool) (op : Operation)
    (operands : list MANPLatticeValue) (st : AnalysisState)
  : AnalysisState * result ChangeResult :=
  let selected : AnalysisState * result (option APInt.t) :=
    match opName op with
    | HLFHE_Dot => (st, Some <$> getSqMANP_Dot op operands)
    | HLFHE_AddEintIntOp => (st, Some <$> getSqMANP_AddEintIntOp op operands)
    | HLFHE_AddEintOp => (st, Some <$> getSqMANP_AddEintOp op operands)
    | HLFHE_SubIntEintOp => (st, Some <$> getSqMANP_SubIntEintOp op operands)
    | HLFHE_MulEintIntOp => (st, Some <$> getSqMANP_MulEintIntOp op operands)
    | HLFHE_ZeroEintOp | HLFHE_ApplyLookupTableEintOp =>
        (st, Some <$> APInt.make 1 1)
    | Std_ConstantOp => (st, Ok None)
    | _ =>
        if isa_HLFHEDialect (getDialect (opName op)) then
          (emit DiagError op "Unsupported operation" st,
           Abort "Unsupported operation")
        else
          (st, Ok None)
    end in
  match selected with
  | (st, Abort msg) => (st, Abort msg)
  | (st, Ok (Some norm2SqEquiv)) =>
      match LatticeElement_join op (mkMANPLatticeValue (Some norm2SqEquiv)) st with
      | Abort msg => (st, Abort msg)
      | Ok st =>
          match APIntCeilSqrt norm2SqEquiv with
          | Abort msg => (st, Abort msg)
          | Ok norm2Equiv =>
              let st :=
                setAttr op "MANP"
                  (IntegerAttr (IntegerType (APInt.BitWidth norm2Equiv) Unsigned)
                               norm2Equiv) st in
              let st :=
                if debug then
                  emit DiagRemark op
                    ("Squared Minimal Arithmetic Noise Padding: "
                     +:+ APIntToStringValUnsigned norm2SqEquiv +:+ "
") st
                else st in
              (st, Ok Change)
          end
      end
  | (st, Ok None) =>
      match LatticeElement_join op (mkMANPLatticeValue None) st with
      | Abort msg => (st, Abort msg)
      | Ok st => (st, Ok Change)
      end
  end.


(** ** Notions of the specification *)

(** The types of encrypted values: an encrypted scalar, or a tensor whose
    elements are encrypted scalars. *)
Inductive EncryptedValueType : MlirType -> Prop :=
  | encrypted_scalar w : EncryptedValueType (EncryptedIntegerType w)
  | encrypted_ranked_tensor shape w :
      EncryptedValueType (RankedTensorType shape (EncryptedIntegerType w))
  | encrypted_unranked_tensor w :
      EncryptedValueType (UnrankedTensorType (EncryptedIntegerType w)).

(** The operation kinds that have a row in the rule table. *)
Definition inRuleTable (n : OpName) : bool :=
  match n with
  | HLFHE_Dot | HLFHE_AddEintIntOp | HLFHE_AddEintOp | HLFHE_SubIntEintOp
  | HLFHE_MulEintIntOp | HLFHE_ZeroEintOp | HLFHE_ApplyLookupTableEintOp
  | Std_ConstantOp => true
  | HLFHE_other _ | Other_op _ => false
  end.

(** [maxValue w]: the all-ones pattern of [w] bits. *)
Definition maxValue (w : Z) : Z := 2 ^ w - 1.

(** The sum of the squares of a list of integers. *)
Definition sumOfSquares (cs : list Z) : Z := foldr (fun c acc => c * c + acc) 0 cs.

(** ** Two programs of the specification *)

(** The dot product of an encrypted block argument with the constant vector
    [[1; 2; 3]] of 3-bit integers. *)
Definition cst_1_2_3 : Operation :=
  mkOperation 1 Std_ConstantOp []
    [("value",
      DenseIntElementsAttr (RankedTensorType [3] (IntegerType 3 Signless))
        [APInt.mk 3 1; APInt.mk 3 2; APInt.mk 3 3])]
    (RankedTensorType [3] (IntegerType 3 Signless)).

Definition dot_cst_1_2_3 : Operation :=
  mkOperation 2 HLFHE_Dot
    [BlockArgument (RankedTensorType [3] (EncryptedIntegerType 2)) 0;
     OpResult cst_1_2_3]
    [] (EncryptedIntegerType 2).

(** The dot product of an encrypted block argument with a block argument of
    four 8-bit integers. *)
Definition dot_dyn_4_i8 : Operation :=
  mkOperation 3 HLFHE_Dot
    [BlockArgument (RankedTensorType [4] (EncryptedIntegerType 7)) 0;
     BlockArgument (RankedTensorType [4] (IntegerType 8 Signless)) 1]
    [] (EncryptedIntegerType 7).

(** A dot product whose encrypted operand is the result of another operation
    (a tensor built from three encrypted block arguments), not a block
    argument. *)
Definition tensor_of_args : Operation :=
  mkOperation 4 (Other_op "tensor.from_elements")
    [BlockArgument (EncryptedIntegerType 2) 0;
     BlockArgument (EncryptedIntegerType 2) 1;
     BlockArgument (EncryptedIntegerType 2) 2]
    [] (RankedTensorType [3] (EncryptedIntegerType 2)).

Definition dot_of_result : Operation :=
  mkOperation 5 HLFHE_Dot [OpResult tensor_of_args; OpResult cst_1_2_3] []
    (EncryptedIntegerType 2).

(** [add_eint_int], [sub_int_eint] and [mul_eint_int] of an encrypted block
    argument and a block argument of type [i3]. *)
Definition dyn_i3 : Value := BlockArgument (IntegerType 3 Signless) 1.

Definition add_dyn_i3 : Operation :=
  mkOperation 6 HLFHE_AddEintIntOp
    [BlockArgument (EncryptedIntegerType 2) 0; dyn_i3] [] (EncryptedIntegerType 2).

(** [mul_eint_int] of an encrypted block argument and the constant 5. *)
Definition cst_5 : Operation :=
  mkOperation 7 Std_ConstantOp []
    [("value", IntegerAttr (IntegerType 4 Signless) (APInt.mk 4 5))]
    (IntegerType 4 Signless).

Definition mul_cst_5 : Operation :=
  mkOperation 8 HLFHE_MulEintIntOp
    [BlockArgument (EncryptedIntegerType 3) 0; OpResult cst_5] []
    (EncryptedIntegerType 3).

(** [add_eint] of two encrypted block arguments. *)
Definition add_eint_args : Operation :=
  mkOperation 10 HLFHE_AddEintOp
    [BlockArgument (EncryptedIntegerType 2) 0; BlockArgument (EncryptedIntegerType 2) 1]
    [] (EncryptedIntegerType 2).

(** An operation of the HLFHE dialect that the pass has no rule for. *)
Definition unsupported_op : Operation :=
  mkOperation 9 (HLFHE_other "neg_eint")
    [BlockArgument (EncryptedIntegerType 2) 0] [] (EncryptedIntegerType 2).

Definition emptyState : AnalysisState := mkAnalysisState ∅ ∅ [].

(** [add_eint_int] and [sub_int_eint] of an encrypted block argument and the
    constant 5. *)
Definition add_cst_5 : Operation :=
  mkOperation 11 HLFHE_AddEintIntOp
    [BlockArgument (EncryptedIntegerType 3) 0; OpResult cst_5] []
    (EncryptedIntegerType 3).

Definition sub_cst_5 : Operation :=
  mkOperation 12 HLFHE_SubIntEintOp
    [OpResult cst_5; BlockArgument (EncryptedIntegerType 3) 0] []
    (EncryptedIntegerType 3).

(** A constant vector of four 8-bit integers. *)
Definition cst_4_i8 : Operation :=
  mkOperation 13 Std_ConstantOp []
    [("value",
      DenseIntElementsAttr (RankedTensorType [4] (IntegerType 8 Signless))
        [APInt.mk 8 1; APInt.mk 8 2; APInt.mk 8 3; APInt.mk 8 255])]
    (RankedTensorType [4] (IntegerType 8 Signless)).

(** [zero] producing an encrypted scalar. *)
Definition zero_op : Operation :=
  mkOperation 14 HLFHE_ZeroEintOp [] [] (EncryptedIntegerType 2).

(** A state in which the result of [dot_cst_1_2_3] already has its norm. *)
Definition visitedState : AnalysisState :=
  mkAnalysisState {[ 2%nat := mkMANPLatticeValue (Some (APInt.mk 9 14)) ]} ∅ [].

(** A dot product of the result of another operation (a tensor built from
    four encrypted block arguments) with a block argument of four 8-bit
    integers. *)
Definition tensor_of_4_args : Operation :=
  mkOperation 15 (Other_op "tensor.from_elements")
    [BlockArgument (EncryptedIntegerType 7) 0;
     BlockArgument (EncryptedIntegerType 7) 1;
     BlockArgument (EncryptedIntegerType 7) 2;
     BlockArgument (EncryptedIntegerType 7) 3]
    [] (RankedTensorType [4] (EncryptedIntegerType 7)).

Definition dot_dyn_of_result : Operation :=
  mkOperation 16 HLFHE_Dot
    [OpResult tensor_of_4_args;
     BlockArgument (RankedTensorType [4] (IntegerType 8 Signless)) 4]
    [] (EncryptedIntegerType 7).

(** A dot product of two block arguments that are empty vectors. *)
Definition dot_dyn_0_i8 : Operation :=
  mkOperation 17 HLFHE_Dot
    [BlockArgument (RankedTensorType [0] (EncryptedIntegerType 7)) 0;
     BlockArgument (RankedTensorType [0] (IntegerType 8 Signless)) 1]
    [] (EncryptedIntegerType 7).

(** * Properties *)

Lemma u32_small x : 0 <= x <= UINT_MAX -> u32 x = x.
Proof. intros H. unfold u32, UINT_MAX in *. apply Z.mod_small. lia. Qed.

Lemma u64_small x : 0 <= x < 2 ^ 64 -> u64 x = x.
Proof. intros H. unfold u64. apply Z.mod_small. lia. Qed.

Lemma assert_true c msg : c = true -> assert c msg = Ok tt.
Proof. intros ->. reflexivity. Qed.

Lemma APIntWidthExtendUAdd_exact (a b : APInt.t) :
  APInt.valid a -> APInt.valid b ->
  Z.max (APInt.BitWidth a) (APInt.BitWidth b) < UINT_MAX - 1 ->
  APIntWidthExtendUAdd a b =
    Ok (APInt.mk (Z.max (APInt.BitWidth a) (APInt.BitWidth b) + 1)
                 (APInt.VAL a + APInt.VAL b)).
Proof.
  intros [Hwa Hva] [Hwb Hvb] Hmax.
  unfold APIntWidthExtendUAdd.
  set (m := Z.max (APInt.BitWidth a) (APInt.BitWidth b)) in *.
  assert (Hm : 0 < m <= UINT_MAX) by (unfold m; lia).
  rewrite !u32_small by lia.
  rewrite (assert_true (UINT_MAX - m >? 1)) by (rewrite Z.gtb_ltb; apply Z.ltb_lt; lia).
  cbn [mbind result_bind].
  unfold APInt.zext.
  rewrite !assert_true by (apply Z.ltb_lt; cbn [APInt.BitWidth]; unfold m; lia).
  cbn [mbind result_bind mret result_ret].
  unfold APInt.add; cbn [APInt.BitWidth APInt.VAL].
  rewrite assert_true by apply Z.eqb_refl.
  cbn [mbind result_bind mret result_ret].
  do 2 f_equal. apply Z.mod_small.
  assert (2 ^ APInt.BitWidth a <= 2 ^ m) by (apply Z.pow_le_mono_r; unfold m; lia).
  assert (2 ^ APInt.BitWidth b <= 2 ^ m) by (apply Z.pow_le_mono_r; unfold m; lia).
  rewrite Z.pow_add_r by lia. change (2 ^ 1) with 2. lia.
Qed.


Lemma APIntWidthExtendUMul_exact (a b : APInt.t) :
  APInt.valid a -> APInt.valid b ->
  APInt.BitWidth a + APInt.BitWidth b < UINT_MAX ->
  APIntWidthExtendUMul a b =
    Ok (APInt.mk (APInt.BitWidth a + APInt.BitWidth b) (APInt.VAL a * APInt.VAL b)).
Proof.
  intros [Hwa Hva] [Hwb Hvb] Hsum.
  unfold APIntWidthExtendUMul.
  rewrite !u32_small by lia.
  rewrite assert_true by (rewrite Z.gtb_ltb; apply Z.ltb_lt; lia).
  cbn [mbind result_bind].
  unfold APInt.zext.
  rewrite !assert_true by (apply Z.ltb_lt; cbn [APInt.BitWidth]; lia).
  cbn [mbind result_bind mret result_ret].
  unfold APInt.mul; cbn [APInt.BitWidth APInt.VAL].
  rewrite assert_true by apply Z.eqb_refl.
  cbn [mbind result_bind mret result_ret].
  do 2 f_equal. apply Z.mod_small.
  rewrite Z.pow_add_r by lia. nia.
Qed.

Lemma APIntWidthExtendUSq_exact (i : APInt.t) :
  APInt.valid i -> APInt.BitWidth i < UINT_MAX / 2 ->
  APIntWidthExtendUSq i =
    Ok (APInt.mk (2 * APInt.BitWidth i) (APInt.VAL i * APInt.VAL i)).
Proof.
  intros [Hw Hv] Hhalf.
  unfold APIntWidthExtendUSq.
  change (UINT_MAX / 2) with 2147483647 in *.
  unfold UINT_MAX in Hw.
  rewrite u32_small by (unfold UINT_MAX; lia).
  rewrite assert_true by (apply Z.ltb_lt; lia).
  cbn [mbind result_bind].
  unfold APInt.zext.
  rewrite assert_true by (apply Z.ltb_lt; lia).
  cbn [mbind result_bind mret result_ret].
  unfold APInt.mul; cbn [APInt.BitWidth APInt.VAL].
  rewrite assert_true by apply Z.eqb_refl.
  cbn [mbind result_bind mret result_ret].
  do 2 f_equal. apply Z.mod_small.
  replace (2 * APInt.BitWidth i) with (APInt.BitWidth i + APInt.BitWidth i) by lia.
  rewrite Z.pow_add_r by lia. nia.
Qed.

Lemma APIntWidthExtendULT_exact (a b : APInt.t) :
  APInt.valid a -> APInt.valid b ->
  APIntWidthExtendULT a b = Ok (APInt.VAL a <? APInt.VAL b).
Proof.
  intros [Hwa Hva] [Hwb Hvb].
  unfold APIntWidthExtendULT.
  destruct (APInt.BitWidth a <? APInt.BitWidth b) eqn:Hlt.
  - unfold APInt.zext. rewrite Hlt. cbn [assert mbind result_bind mret result_ret].
    unfold APInt.ult. cbn [APInt.BitWidth APInt.VAL].
    rewrite Z.eqb_refl. reflexivity.
  - destruct (APInt.BitWidth a >? APInt.BitWidth b) eqn:Hgt.
    + unfold APInt.zext. rewrite Z.gtb_ltb in Hgt. rewrite Hgt.
      cbn [assert mbind result_bind mret result_ret].
      unfold APInt.ult. cbn [APInt.BitWidth APInt.VAL].
      rewrite Z.eqb_refl. reflexivity.
    + unfold APInt.ult.
      rewrite assert_true; [reflexivity|].
      apply Z.eqb_eq. rewrite Z.gtb_ltb in Hgt.
      apply Z.ltb_ge in Hlt, Hgt. lia.
Qed.

Lemma APIntWidthExtendUAdd_comm (a b : APInt.t) :
  APIntWidthExtendUAdd a b = APIntWidthExtendUAdd b a.
Proof.
  unfold APIntWidthExtendUAdd.
  rewrite (Z.max_comm (APInt.BitWidth b) (APInt.BitWidth a)).
  destruct (assert _ _) as [[]|msg]; cbn [mbind result_bind]; [|reflexivity].
  unfold APInt.zext.
  destruct (APInt.BitWidth a <? _) eqn:Ha, (APInt.BitWidth b <? _) eqn:Hb;
    cbn [assert mbind result_bind mret result_ret]; try reflexivity.
  unfold APInt.add; cbn [APInt.BitWidth APInt.VAL].
  rewrite Z.eqb_refl. cbn [assert mbind result_bind mret result_ret].
  rewrite (Z.add_comm (APInt.VAL b)). reflexivity.
Qed.

Lemma APIntWidthExtendUMul_comm (a b : APInt.t) :
  APIntWidthExtendUMul a b = APIntWidthExtendUMul b a.
Proof.
  unfold APIntWidthExtendUMul.
  rewrite (Z.max_comm (APInt.BitWidth b) (APInt.BitWidth a)).
  rewrite (Z.min_comm (APInt.BitWidth b) (APInt.BitWidth a)).
  rewrite (Z.add_comm (APInt.BitWidth b) (APInt.BitWidth a)).
  destruct (assert _ _) as [[]|msg]; cbn [mbind result_bind]; [|reflexivity].
  unfold APInt.zext.
  destruct (APInt.BitWidth a <? _) eqn:Ha, (APInt.BitWidth b <? _) eqn:Hb;
    cbn [assert mbind result_bind mret result_ret]; try reflexivity.
  unfold APInt.mul; cbn [APInt.BitWidth APInt.VAL].
  rewrite Z.eqb_refl. cbn [assert mbind result_bind mret result_ret].
  rewrite (Z.mul_comm (APInt.VAL b)). reflexivity.
Qed.


(** C9: [add] ([APIntWidthExtendUAdd]) and [multiply] ([APIntWidthExtendUMul])
    are commutative, and within the width budget of the host (the widths the
    assertions of the two functions allow) they return the exact sum and the
    exact product, in [max(width a, width b) + 1] bits and in
    [width a + width b] bits. *)
Theorem add_multiply_exact_commutative (a b : APInt.t) :
  APInt.valid a -> APInt.valid b ->
  APIntWidthExtendUAdd a b = APIntWidthExtendUAdd b a
  /\ APIntWidthExtendUMul a b = APIntWidthExtendUMul b a
  /\ (Z.max (APInt.BitWidth a) (APInt.BitWidth b) < UINT_MAX - 1 ->
      APIntWidthExtendUAdd a b =
        Ok (APInt.mk (Z.max (APInt.BitWidth a) (APInt.BitWidth b) + 1)
                     (APInt.VAL a + APInt.VAL b)))
  /\ (APInt.BitWidth a + APInt.BitWidth b < UINT_MAX ->
      APIntWidthExtendUMul a b =
        Ok (APInt.mk (APInt.BitWidth a + APInt.BitWidth b)
                     (APInt.VAL a * APInt.VAL b))).
Proof.
  intros Ha Hb. split; [apply APIntWidthExtendUAdd_comm|].
  split; [apply APIntWidthExtendUMul_comm|].
  split; intros Hw.
  - now apply APIntWidthExtendUAdd_exact.
  - now apply APIntWidthExtendUMul_exact.
Qed.

(** The square root of the pass is sound from here on. *)
Hypothesis isqrt_ok : isqrt_sound isqrt.

Lemma isqrt_range v :
  0 <= v -> 0 <= isqrt v <= v.
Proof.
  intros Hv. pose proof (Z.sqrt_spec v Hv) as Hs. cbv zeta in Hs.
  pose proof (Z.sqrt_nonneg v) as Hs0.
  destruct (isqrt_ok v Hv) as [-> | [-> Hlt]]; nia.
Qed.

Lemma APInt_sqrt_valid (i : APInt.t) :
  APInt.valid i ->
  APInt.valid (APInt_sqrt i) /\ APInt.VAL (APInt_sqrt i) = isqrt (APInt.VAL i).
Proof.
  intros [Hw Hv]. pose proof (isqrt_range (APInt.VAL i) (proj1 Hv)) as Hr.
  unfold APInt_sqrt, APInt.valid; cbn [APInt.BitWidth APInt.VAL].
  rewrite Z.mod_small by lia. repeat split; lia.
Qed.

(** What [APIntCeilSqrt] returns: a valid [APInt] holding the least [r] with
    [r * r >= v]. *)
Lemma APIntCeilSqrt_least (i : APInt.t) :
  APInt.valid i -> APInt.BitWidth i < UINT_MAX / 2 ->
  exists r, APIntCeilSqrt i = Ok r
    /\ APInt.valid r
    /\ APInt.VAL i <= APInt.VAL r * APInt.VAL r
    /\ (forall k, 0 <= k -> APInt.VAL i <= k * k -> APInt.VAL r <= k).
Proof.
  intros Hi Hhalf.
  destruct (APInt_sqrt_valid i Hi) as [Hres Hval].
  assert (Hv : 0 <= APInt.VAL i) by (destruct Hi; lia).
  pose proof (Z.sqrt_spec _ Hv) as Hs. cbv zeta in Hs.
  pose proof (Z.sqrt_nonneg (APInt.VAL i)) as Hs0.
  unfold APIntCeilSqrt.
  rewrite APIntWidthExtendUSq_exact by (try assumption; cbn; lia).
  cbn [mbind result_bind].
  change (UINT_MAX / 2) with 2147483647 in Hhalf.
  rewrite APIntWidthExtendULT_exact; [| |assumption].
  2:{ destruct Hres as [Hw Hr]. cbn [APInt_sqrt APInt.BitWidth] in Hw.
      split; cbn [APInt_sqrt APInt.BitWidth APInt.VAL];
        [unfold UINT_MAX in *; lia|].
      cbn [APInt_sqrt APInt.BitWidth APInt.VAL] in Hr.
      replace (2 * APInt.BitWidth i)
        with (APInt.BitWidth i + APInt.BitWidth i) by lia.
      rewrite Z.pow_add_r by lia. nia. }
  cbn [mbind result_bind APInt.VAL]. rewrite Hval.
  change (APInt.VAL (APInt_sqrt i)) with (isqrt (APInt.VAL i) mod 2 ^ APInt.BitWidth i) in Hval.
  destruct (isqrt (APInt.VAL i) * isqrt (APInt.VAL i) <? APInt.VAL i) eqn:Hlt.
  - apply Z.ltb_lt in Hlt.
    assert (Hfl : isqrt (APInt.VAL i) = Z.sqrt (APInt.VAL i))
      by (destruct (isqrt_ok _ Hv) as [-> | [Hr _]]; [reflexivity | rewrite Hr in Hlt; lia]).
    change (APInt.make 1 1) with (Ok (APInt.mk 1 1)). cbn [mbind result_bind].
    rewrite APIntWidthExtendUAdd_exact; [| assumption | by vm_compute |].
    2:{ cbn [APInt_sqrt APInt.BitWidth]. unfold UINT_MAX. lia. }
    eexists; split; [reflexivity|].
    cbn [APInt.VAL APInt.BitWidth APInt_sqrt]. rewrite Hval, Hfl.
    destruct Hi as [Hw Hvi].
    assert (2 ^ APInt.BitWidth i <= 2 ^ (Z.max (APInt.BitWidth i) 1 + 1))
      by (apply Z.pow_le_mono_r; lia).
    rewrite Hfl in Hlt.
    assert (Z.sqrt (APInt.VAL i) + 1 <= APInt.VAL i) by nia.
    split; [|split; [nia | intros k Hk Hkk; nia]].
    unfold APInt.valid; cbn [APInt.BitWidth APInt.VAL].
    unfold UINT_MAX in *. lia.
  - apply Z.ltb_ge in Hlt.
    eexists; split; [reflexivity|].
    split; [assumption|]. cbn [APInt_sqrt APInt.VAL]. rewrite Hval.
    split; [lia|].
    intros k Hk Hkk.
    destruct (isqrt_ok _ Hv) as [Hr | [Hr Hsq]]; rewrite Hr in *; nia.
Qed.

(** C2: [ceilSqrt v] ([APIntCeilSqrt]) squared is at least [v]; for [v > 0],
    [ceilSqrt v - 1] squared is below [v]; [ceilSqrt 0 = 0]; and [ceilSqrt v]
    is the smallest integer whose square is at least [v]. *)
Theorem APIntCeilSqrt_smallest_root (i : APInt.t) :
  APInt.valid i -> APInt.BitWidth i < UINT_MAX / 2 ->
  exists r, APIntCeilSqrt i = Ok r
    /\ 0 <= APInt.VAL r
    /\ APInt.VAL r * APInt.VAL r >= APInt.VAL i
    /\ (APInt.VAL i > 0 -> (APInt.VAL r - 1) * (APInt.VAL r - 1) < APInt.VAL i)
    /\ (APInt.VAL i = 0 -> APInt.VAL r = 0)
    /\ (forall k, 0 <= k -> k * k >= APInt.VAL i -> APInt.VAL r <= k).
Proof.
  intros Hi Hhalf.
  destruct (APIntCeilSqrt_least i Hi Hhalf) as (r & Hr & [_ Hv] & Hge & Hleast).
  exists r. split; [assumption|]. split; [lia|]. split; [lia|].
  split; [|split].
  - intros Hpos.
    destruct (Z.le_gt_cases (APInt.VAL i) ((APInt.VAL r - 1) * (APInt.VAL r - 1)))
      as [Hle|]; [|assumption].
    assert (APInt.VAL r <> 0) by (intros H0; rewrite H0 in Hge; lia).
    specialize (Hleast (APInt.VAL r - 1)). lia.
  - intros H0. specialize (Hleast 0). lia.
  - intros k Hk Hkk. apply Hleast; lia.
Qed.


(** ** Plaintext operands *)

Lemma conservativeIntNorm2Sq_value (w : Z) :
  0 < w < 2147483646 ->
  conservativeIntNorm2Sq (IntegerType w Signless) =
    Ok (APInt.mk (2 * (w + 1)) (2 ^ w * 2 ^ w)).
Proof.
  intros Hw. unfold conservativeIntNorm2Sq.
  cbn [isSignlessInteger assert getIntOrFloatBitWidth mbind result_bind].
  rewrite !u32_small by (unfold UINT_MAX; lia).
  rewrite assert_true by (rewrite Z.gtb_ltb; apply Z.ltb_lt; unfold UINT_MAX; lia).
  cbn [mbind result_bind]. unfold APInt.make.
  rewrite assert_true by (apply Z.ltb_lt; lia).
  cbn [mbind result_bind mret result_ret]. unfold APInt.shl.
  cbn [APInt.BitWidth APInt.VAL].
  rewrite assert_true by (apply Z.leb_le; lia).
  cbn [mbind result_bind mret result_ret].
  assert (Hpw : 0 < 2 ^ w) by (apply Z.pow_pos_nonneg; lia).
  assert (Hp1 : 2 ^ (w + 1) = 2 * 2 ^ w)
    by (rewrite Z.pow_add_r by lia; change (2 ^ 1) with 2; lia).
  rewrite (Z.mod_small 1) by lia.
  rewrite Z.shiftl_1_l, (Z.mod_small (2 ^ w)) by lia.
  rewrite APIntWidthExtendUSq_exact; [reflexivity| |].
  - split; cbn [APInt.BitWidth APInt.VAL]; unfold UINT_MAX; lia.
  - cbn [APInt.BitWidth]. change (UINT_MAX / 2) with 2147483647. lia.
Qed.

(** ** The scalar rules *)

(** C5: the rule of [add_eint] returns exactly the sum of the squared norm
    bounds of its two operands, one bit wider than the wider of the two. *)
Theorem getSqMANP_AddEintOp_sum (op : Operation) (p q : APInt.t) :
  APInt.valid p -> APInt.valid q ->
  Z.max (APInt.BitWidth p) (APInt.BitWidth q) < UINT_MAX - 1 ->
  getSqMANP_AddEintOp op [mkMANPLatticeValue (Some p); mkMANPLatticeValue (Some q)] =
    Ok (APInt.mk (Z.max (APInt.BitWidth p) (APInt.BitWidth q) + 1)
                 (APInt.VAL p + APInt.VAL q)).
Proof.
  intros Hp Hq Hw. unfold getSqMANP_AddEintOp.
  cbn. now apply APIntWidthExtendUAdd_exact.
Qed.

(** C6: the rule of [mul_eint_int] with a constant plaintext operand [k]
    returns exactly [k * k * p], [p] the squared norm bound of the encrypted
    operand. *)
Theorem getSqMANP_MulEintIntOp_constant (op cstOp : Operation)
    (operandMANPs : list MANPLatticeValue) (k p : APInt.t)
    (w : Z) (ty : MlirType) (e1 : MANPLatticeValue) :
  getOperands op !! 1%nat = Some (OpResult cstOp) ->
  opName cstOp = Std_ConstantOp ->
  resultType cstOp = IntegerType w Signless ->
  getAttr (getAttrs cstOp) "value" = Some (IntegerAttr ty k) ->
  operandMANPs = [mkMANPLatticeValue (Some p); e1] ->
  APInt.valid k -> APInt.valid p ->
  2 * APInt.BitWidth k + APInt.BitWidth p < UINT_MAX ->
  getSqMANP_MulEintIntOp op operandMANPs =
    Ok (APInt.mk (2 * APInt.BitWidth k + APInt.BitWidth p)
                 (APInt.VAL k * APInt.VAL k * APInt.VAL p)).
Proof.
  intros Hop Hname Hty Hattr -> Hk Hp Hw.
  unfold getSqMANP_MulEintIntOp, getOpOperand. rewrite Hop.
  cbn [mbind result_bind getType getDefiningOp dyn_cast_or_null_ConstantOp].
  rewrite Hty, Hname. cbn.
  unfold getAttrOfType_IntegerAttr. rewrite Hattr. cbn [getValue mbind result_bind].
  assert (Hk' := Hk). destruct Hk' as [Hwk _]. destruct Hp as [Hwp Hvp].
  rewrite APIntWidthExtendUSq_exact;
    [| assumption | change (UINT_MAX / 2) with 2147483647; unfold UINT_MAX in *; lia].
  cbn [mbind result_bind].
  rewrite APIntWidthExtendUMul_exact; [reflexivity | | split; assumption | assumption].
  destruct Hk as [_ Hvk].
  split; cbn [APInt.BitWidth APInt.VAL]; [unfold UINT_MAX in *; lia|].
  replace (2 * APInt.BitWidth k) with (APInt.BitWidth k + APInt.BitWidth k) by lia.
  rewrite Z.pow_add_r by lia. nia.
Qed.


Lemma getMaxValue_maxValue (w : Z) :
  0 < w -> APInt.getMaxValue w = Ok (APInt.mk w (maxValue w)).
Proof.
  intros Hw. unfold APInt.getMaxValue, maxValue.
  rewrite assert_true by (apply Z.ltb_lt; lia).
  cbn [mbind result_bind mret result_ret].
  rewrite Z.ones_equiv. unfold Z.pred. reflexivity.
Qed.

(** C1: for a plaintext operand that is not a constant, of a signless integer
    type of [w] bits, the three scalar rules use the square of
    [maxValue w + 1], that is of [2 ^ w], and not the square of [maxValue w]. *)
Theorem dynamic_int_operand_contribution (op : Operation) (v : Value) (w : Z)
    (e : APInt.t) (other : MANPLatticeValue) :
  0 < w -> 2 * (w + 1) + APInt.BitWidth e < UINT_MAX ->
  dyn_cast_or_null_ConstantOp (getDefiningOp v) = None ->
  getType v = IntegerType w Signless ->
  APInt.valid e ->
  conservativeIntNorm2Sq (getType v) =
    Ok (APInt.mk (2 * (w + 1)) ((maxValue w + 1) * (maxValue w + 1)))
  /\ (maxValue w + 1) * (maxValue w + 1) > maxValue w * maxValue w
  /\ (getOperands op !! 1%nat = Some v ->
      getSqMANP_AddEintIntOp op [mkMANPLatticeValue (Some e); other] =
        Ok (APInt.mk (Z.max (2 * (w + 1)) (APInt.BitWidth e) + 1)
                     ((maxValue w + 1) * (maxValue w + 1) + APInt.VAL e)))
  /\ (getOperands op !! 0%nat = Some v ->
      getSqMANP_SubIntEintOp op [other; mkMANPLatticeValue (Some e)] =
        Ok (APInt.mk (Z.max (2 * (w + 1)) (APInt.BitWidth e) + 1)
                     ((maxValue w + 1) * (maxValue w + 1) + APInt.VAL e)))
  /\ (getOperands op !! 1%nat = Some v ->
      getSqMANP_MulEintIntOp op [mkMANPLatticeValue (Some e); other] =
        Ok (APInt.mk (2 * (w + 1) + APInt.BitWidth e)
                     ((maxValue w + 1) * (maxValue w + 1) * APInt.VAL e))).
Proof.
  intros Hw Hbudget Hdyn Hty He.
  assert (Hwe : 0 < APInt.BitWidth e) by (destruct He; lia).
  assert (Hcons : conservativeIntNorm2Sq (IntegerType w Signless) =
                  Ok (APInt.mk (2 * (w + 1)) ((maxValue w + 1) * (maxValue w + 1)))).
  { rewrite conservativeIntNorm2Sq_value by (unfold UINT_MAX in *; lia).
    unfold maxValue. do 2 f_equal; lia. }
  assert (Hpw : 0 < 2 ^ w) by (apply Z.pow_pos_nonneg; lia).
  assert (Hsq : APInt.valid (APInt.mk (2 * (w + 1)) ((maxValue w + 1) * (maxValue w + 1)))).
  { split; cbn [APInt.BitWidth APInt.VAL]; [unfold UINT_MAX in *; lia|].
    unfold maxValue.
    replace (2 * (w + 1)) with (w + w + 2) by lia.
    rewrite !Z.pow_add_r by lia. change (2 ^ 2) with 4. nia. }
  rewrite Hty. split; [exact Hcons|].
  split; [unfold maxValue; nia|].
  split; [|split]; intros Hop.
  - unfold getSqMANP_AddEintIntOp, getOpOperand. rewrite Hop.
    cbn [mbind result_bind]. rewrite Hdyn, Hty, Hcons. cbn.
    apply APIntWidthExtendUAdd_exact; [assumption..|].
    cbn [APInt.BitWidth]. lia.
  - unfold getSqMANP_SubIntEintOp, getOpOperand. rewrite Hop.
    cbn [mbind result_bind]. rewrite Hdyn, Hty, Hcons. cbn.
    apply APIntWidthExtendUAdd_exact; [assumption..|].
    cbn [APInt.BitWidth]. lia.
  - unfold getSqMANP_MulEintIntOp, getOpOperand. rewrite Hop.
    cbn [mbind result_bind]. rewrite Hdyn, Hty, Hcons. cbn.
    apply APIntWidthExtendUMul_exact; [assumption..|].
    cbn [APInt.BitWidth]. lia.
Qed.

(** ** Block arguments *)

Lemma APIntCeilSqrt_one : APIntCeilSqrt (APInt.mk 1 1) = Ok (APInt.mk 1 1).
Proof.
  assert (H1 : isqrt 1 = 1).
  { destruct (isqrt_ok 1) as [H | [_ H]]; [lia | exact H | ].
    change (Z.sqrt 1) with 1 in H. lia. }
  unfold APIntCeilSqrt, APInt_sqrt. cbn [APInt.VAL APInt.BitWidth].
  rewrite H1. reflexivity.
Qed.

(** C8: a block argument of encrypted type (an encrypted scalar or a tensor of
    encrypted scalars) is seeded with the squared norm bound 1, whose MANP is
    1; every other block argument is seeded with no norm bound. *)
Theorem getPessimisticValueState_block_argument (ty : MlirType) (argNumber : nat) :
  (EncryptedValueType ty ->
     getPessimisticValueState (BlockArgument ty argNumber) =
       Ok (mkMANPLatticeValue (Some (APInt.mk 1 1)))
     /\ APIntCeilSqrt (APInt.mk 1 1) = Ok (APInt.mk 1 1))
  /\ (~ EncryptedValueType ty ->
     getPessimisticValueState (BlockArgument ty argNumber) =
       Ok (mkMANPLatticeValue None)).
Proof.
  split.
  - intros Henc. split; [|apply APIntCeilSqrt_one].
    destruct Henc; reflexivity.
  - intros Hnot. unfold getPessimisticValueState.
    cbn [isa_BlockArgument getType andb].
    destruct ty as [w s | w | shape e | e | ]; try reflexivity.
    + exfalso. apply Hnot. constructor.
    + destruct e; try reflexivity. exfalso. apply Hnot. constructor.
    + destruct e; try reflexivity. exfalso. apply Hnot. constructor.
Qed.


(** ** The dot rule and its guard *)

(** C10: the dot rule computes a bound only when operand 0, the encrypted
    vector, is a block argument; when another operation produces it, the rule
    and the visit of the dot operation abort on the failed assertion, with
    the state of the analysis as it was. *)
Theorem getSqMANP_Dot_only_block_argument (debug : bool) (op : Operation)
    (operandMANPs : list MANPLatticeValue) (st : AnalysisState) :
  (forall owner, getOperands op !! 0%nat = Some (OpResult owner) ->
     getSqMANP_Dot op operandMANPs =
       Abort "Only dot operations with tensors that are function arguments are currently supported"
     /\ (opName op = HLFHE_Dot ->
         visitOperation debug op operandMANPs st =
           (st, Abort "Only dot operations with tensors that are function arguments are currently supported")))
  /\ (forall r, getSqMANP_Dot op operandMANPs = Ok r ->
        exists ty argNumber,
          getOperands op !! 0%nat = Some (BlockArgument ty argNumber)).
Proof.
  split.
  - intros owner Hop.
    assert (Hrule : getSqMANP_Dot op operandMANPs =
              Abort "Only dot operations with tensors that are function arguments are currently supported").
    { unfold getSqMANP_Dot, getOpOperand. rewrite Hop. reflexivity. }
    split; [exact Hrule|].
    intros Hname. unfold visitOperation. rewrite Hname, Hrule. reflexivity.
  - intros r Hr. unfold getSqMANP_Dot, getOpOperand in Hr.
    destruct (getOperands op !! 0%nat) as [[ty n | owner]|] eqn:Hop.
    + eauto.
    + discriminate Hr.
    + discriminate Hr.
Qed.

(** ** Operations without a rule *)

(** C7: an operation of the HLFHE dialect whose kind has no row in the rule
    table makes the visit abort after it has emitted one error diagnostic on
    that operation; the visit neither sets an attribute nor initializes a
    lattice element, and does not return normally. *)
Theorem visitOperation_unsupported (debug : bool) (op : Operation)
    (operands : list MANPLatticeValue) (st : AnalysisState) :
  isa_HLFHEDialect (getDialect (opName op)) = true ->
  inRuleTable (opName op) = false ->
  exists st',
    visitOperation debug op operands st = (st', Abort "Unsupported operation")
    /\ diagnostics st' =
         diagnostics st ++ [mkDiagnostic DiagError op "Unsupported operation"]
    /\ setAttrs st' = setAttrs st
    /\ latticeElements st' = latticeElements st
    /\ (forall c, snd (visitOperation debug op operands st) <> Ok c).
Proof.
  intros Hdialect Htable.
  exists (emit DiagError op "Unsupported operation" st).
  assert (Hvisit : visitOperation debug op operands st =
                   (emit DiagError op "Unsupported operation" st,
                    Abort "Unsupported operation")).
  { unfold visitOperation.
    destruct (opName op) eqn:Hname; try discriminate Htable; try discriminate Hdialect.
    reflexivity. }
  rewrite Hvisit. repeat split. intros c. discriminate.
Qed.


(** ** The width of an element count *)

Lemma ceilLog2_while_log2 (rounds : nat) (tmp log2 : Z) :
  0 < tmp < 2 ^ Z.of_nat rounds ->
  0 <= log2 -> log2 + Z.log2 tmp < 2 ^ 64 ->
  ceilLog2_while rounds tmp log2 = log2 + Z.log2 tmp.
Proof.
  revert tmp log2. induction rounds as [|rounds IH]; intros tmp log2 Htmp Hlog Hfit.
  - cbn in Htmp. lia.
  - cbn [ceilLog2_while].
    rewrite Z.shiftr_div_pow2 by lia. change (2 ^ 1) with 2.
    rewrite Nat2Z.inj_succ, Z.pow_succ_r in Htmp by lia.
    destruct (tmp / 2 =? 0) eqn:Hz.
    + apply Z.eqb_eq in Hz.
      assert (tmp = 1) by (pose proof (Z.div_mod tmp 2); pose proof (Z.mod_pos_bound tmp 2); lia).
      subst tmp. cbn. lia.
    + apply Z.eqb_neq in Hz.
      assert (Hge : 2 <= tmp)
        by (destruct (Z.le_gt_cases 2 tmp); [assumption | rewrite Z.div_small in Hz; lia]).
      assert (Hone : 1 <= Z.log2 tmp) by (apply Z.log2_le_pow2; lia).
      assert (Hhalf : Z.log2 (tmp / 2) = Z.log2 tmp - 1).
      { replace (tmp / 2) with (Z.shiftr tmp 1)
          by (rewrite Z.shiftr_div_pow2 by lia; reflexivity).
        rewrite Z.log2_shiftr by lia. lia. }
      rewrite u64_small by lia.
      rewrite IH; [lia | | lia | lia].
      split; [apply Z.div_str_pos; lia | apply Z.div_lt_upper_bound; lia].
Qed.

Lemma land_not_msb (v : Z) :
  0 < v < 2 ^ 64 ->
  Z.land v (u64 (Z.lnot (u64 (Z.shiftl 1 (Z.log2 v))))) = v - 2 ^ Z.log2 v.
Proof.
  intros Hv.
  assert (Hk : 0 <= Z.log2 v < 64)
    by (split; [apply Z.log2_nonneg | apply Z.log2_lt_pow2; lia]).
  rewrite Z.shiftl_1_l.
  assert (Hpk : 0 < 2 ^ Z.log2 v < 2 ^ 64)
    by (split; [apply Z.pow_pos_nonneg; lia | apply Z.pow_lt_mono_r; lia]).
  rewrite (u64_small (2 ^ Z.log2 v)) by lia.
  rewrite Z.sub_nocarry_ldiff.
  - apply Z.bits_inj'. intros n Hn.
    rewrite Z.land_spec, Z.ldiff_spec. unfold u64.
    destruct (Z.lt_ge_cases n 64) as [Hlow | Hhigh].
    + rewrite Z.mod_pow2_bits_low, Z.lnot_spec by lia. reflexivity.
    + rewrite Z.mod_pow2_bits_high by lia.
      rewrite (Z.bits_above_log2 v n) by lia. reflexivity.
  - apply Z.bits_inj'. intros n Hn.
    rewrite Z.ldiff_spec, Z.bits_0, Z.pow2_bits_eqb by lia.
    destruct (Z.log2 v =? n) eqn:Hkn; [|reflexivity].
    apply Z.eqb_eq in Hkn. subst n. rewrite Z.bit_log2 by lia. reflexivity.
Qed.

(** [ceilLog2 v] is the ceiling of the binary logarithm of [v]. *)
Lemma ceilLog2_ceiling (v : Z) :
  0 < v < 2 ^ 64 ->
  0 <= ceilLog2 v <= 64
  /\ v <= 2 ^ ceilLog2 v
  /\ (1 < v -> 2 ^ (ceilLog2 v - 1) < v).
Proof.
  intros Hv.
  assert (Hk : 0 <= Z.log2 v < 64)
    by (split; [apply Z.log2_nonneg | apply Z.log2_lt_pow2; lia]).
  pose proof (Z.log2_spec v (proj1 Hv)) as Hspec.
  rewrite Z.pow_succ_r in Hspec by lia.
  unfold ceilLog2.
  rewrite ceilLog2_while_log2 by (cbn; lia).
  rewrite !Z.add_0_l. rewrite land_not_msb by assumption.
  destruct (v - 2 ^ Z.log2 v =? 0) eqn:Hz.
  - apply Z.eqb_eq in Hz. split; [lia|]. split; [lia|].
    intros H1.
    assert (1 <= Z.log2 v) by (apply Z.log2_le_pow2; lia).
    assert (2 ^ (Z.log2 v - 1) < 2 ^ Z.log2 v) by (apply Z.pow_lt_mono_r; lia).
    lia.
  - apply Z.eqb_neq in Hz. rewrite u64_small by lia.
    split; [lia|]. rewrite Z.pow_add_r by lia. change (2 ^ 1) with 2.
    split; [lia|]. intros _. replace (Z.log2 v + 1 - 1) with (Z.log2 v) by lia. lia.
Qed.


(** ** The dot rule *)

Lemma denseCstTensorNorm2Sq_loop_sum (bound : Z) (vals : list APInt.t) :
  bound < UINT_MAX - 1 ->
  forall accu,
  APInt.valid accu ->
  APInt.BitWidth accu + Z.of_nat (length vals) <= bound ->
  (forall val, val ∈ vals ->
     APInt.valid val /\ 2 * APInt.BitWidth val + Z.of_nat (length vals) <= bound) ->
  exists r, denseCstTensorNorm2Sq_loop vals accu = Ok r
    /\ APInt.valid r
    /\ APInt.VAL r = APInt.VAL accu + sumOfSquares (APInt.VAL <$> vals).
Proof.
  intros Hbound. induction vals as [|val rest IH]; intros accu Haccu Hwa Hvals.
  - exists accu. cbn. repeat split; try apply Haccu. lia.
  - destruct (Hvals val) as [Hval Hwv]; [left|].
    cbn [length] in Hwa, Hwv. rewrite Nat2Z.inj_succ in Hwa, Hwv.
    cbn [denseCstTensorNorm2Sq_loop].
    assert (Hw0 : 0 < APInt.BitWidth val) by (destruct Hval; lia).
    assert (Hwa0 : 0 < APInt.BitWidth accu) by (destruct Haccu; lia).
    rewrite APIntWidthExtendUSq_exact;
      [| assumption | change (UINT_MAX / 2) with 2147483647; unfold UINT_MAX in *; lia].
    cbn [mbind result_bind].
    assert (Hsq : APInt.valid (APInt.mk (2 * APInt.BitWidth val)
                                        (APInt.VAL val * APInt.VAL val))).
    { destruct Hval as [_ Hv].
      split; cbn [APInt.BitWidth APInt.VAL]; [unfold UINT_MAX in *; lia|].
      replace (2 * APInt.BitWidth val)
        with (APInt.BitWidth val + APInt.BitWidth val) by lia.
      rewrite Z.pow_add_r by lia. nia. }
    rewrite APIntWidthExtendUAdd_exact;
      [| assumption | assumption | cbn [APInt.BitWidth]; lia].
    cbn [mbind result_bind APInt.BitWidth APInt.VAL].
    destruct (IH (APInt.mk (Z.max (APInt.BitWidth accu) (2 * APInt.BitWidth val) + 1)
                           (APInt.VAL accu + APInt.VAL val * APInt.VAL val)))
      as (r & Hr & Hrv & Hsum).
    + destruct Haccu as [_ Hva], Hsq as [_ Hvs]. cbn [APInt.BitWidth APInt.VAL] in Hvs.
      split; cbn [APInt.BitWidth APInt.VAL]; [unfold UINT_MAX in *; lia|].
      assert (2 ^ APInt.BitWidth accu
              <= 2 ^ Z.max (APInt.BitWidth accu) (2 * APInt.BitWidth val))
        by (apply Z.pow_le_mono_r; lia).
      assert (2 ^ (2 * APInt.BitWidth val)
              <= 2 ^ Z.max (APInt.BitWidth accu) (2 * APInt.BitWidth val))
        by (apply Z.pow_le_mono_r; lia).
      rewrite Z.pow_add_r by lia. change (2 ^ 1) with 2. lia.
    + cbn [APInt.BitWidth]. lia.
    + intros val' Hin. destruct (Hvals val') as [Hv' Hw']; [right; assumption|].
      cbn [length] in Hw'. rewrite Nat2Z.inj_succ in Hw'. split; [assumption | lia].
    + exists r. split; [assumption|]. split; [assumption|].
      rewrite Hsum. cbn [APInt.VAL fmap list_fmap sumOfSquares foldr].
      unfold sumOfSquares. lia.
Qed.

Lemma denseCstTensorNorm2Sq_sum (cstOp : Operation) (aty : MlirType)
    (vals : list APInt.t) (shape : list Z) (w : Z) :
  getAttr (getAttrs cstOp) "value" = Some (DenseIntElementsAttr aty vals) ->
  resultType cstOp = RankedTensorType shape (IntegerType w Signless) ->
  (forall val, val ∈ vals ->
     APInt.valid val
     /\ 2 * APInt.BitWidth val + Z.of_nat (length vals) < UINT_MAX - 1) ->
  exists r, denseCstTensorNorm2Sq cstOp = Ok r
    /\ APInt.valid r
    /\ APInt.VAL r = sumOfSquares (APInt.VAL <$> vals).
Proof.
  intros Hattr Hty Hvals.
  unfold denseCstTensorNorm2Sq, getAttrOfType_DenseIntElementsAttr.
  rewrite Hattr, Hty.
  rewrite assert_true
    by (apply andb_true_intro; split; [apply bool_decide_eq_true; eauto | reflexivity]).
  cbn [mbind result_bind getElementType isSignlessInteger assert getValue].
  change (APInt.make 1 0) with (Ok (APInt.mk 1 0)). cbn [mbind result_bind].
  destruct (denseCstTensorNorm2Sq_loop_sum (UINT_MAX - 2) vals) with (accu := APInt.mk 1 0)
    as (r & Hr & Hrv & Hsum).
  - lia.
  - by vm_compute.
  - cbn [APInt.BitWidth]. destruct vals as [|val rest]; [cbn; unfold UINT_MAX; lia|].
    destruct (Hvals val) as [[Hw _] Hb]; [left|]. lia.
  - intros val Hin. destruct (Hvals val Hin) as [Hv Hb]. split; [assumption | lia].
  - exists r. split; [assumption|]. split; [assumption|].
    rewrite Hsum. cbn [APInt.VAL]. lia.
Qed.

(** C3 (as amended): for a dot whose encrypted operand is a block argument,
    the only form the rule supports, the dot rule with a constant plaintext
    vector returns exactly the sum of the squares of the elements of the
    constant, whatever the norm bounds of the operands are; for the constant
    [[1; 2; 3]] the squared bound is 14 and its MANP, the ceiling square
    root, is 4. *)
Theorem getSqMANP_Dot_constant (op cstOp : Operation)
    (operandMANPs : list MANPLatticeValue) (ty aty : MlirType) (argNumber : nat)
    (vals : list APInt.t) (shape : list Z) (w : Z) :
  getOperands op !! 0%nat = Some (BlockArgument ty argNumber) ->
  getOperands op !! 1%nat = Some (OpResult cstOp) ->
  opName cstOp = Std_ConstantOp ->
  getAttr (getAttrs cstOp) "value" = Some (DenseIntElementsAttr aty vals) ->
  resultType cstOp = RankedTensorType shape (IntegerType w Signless) ->
  (forall val, val ∈ vals ->
     APInt.valid val
     /\ 2 * APInt.BitWidth val + Z.of_nat (length vals) < UINT_MAX - 1) ->
  (exists r, getSqMANP_Dot op operandMANPs = Ok r
     /\ APInt.valid r
     /\ APInt.VAL r = sumOfSquares (APInt.VAL <$> vals))
  /\ getSqMANP_Dot dot_cst_1_2_3 operandMANPs = Ok (APInt.mk 9 14)
  /\ (exists m, APIntCeilSqrt (APInt.mk 9 14) = Ok m /\ APInt.VAL m = 4).
Proof.
  intros Hop0 Hop1 Hname Hattr Hty Hvals. split; [|split].
  - unfold getSqMANP_Dot, getOpOperand. rewrite Hop0, Hop1.
    cbn [mbind result_bind isa_BlockArgument assert getDefiningOp
         dyn_cast_or_null_ConstantOp].
    rewrite Hname. eapply denseCstTensorNorm2Sq_sum; eassumption.
  - reflexivity.
  - destruct (APIntCeilSqrt_least (APInt.mk 9 14)) as (m & Hm & [_ Hm0] & Hge & Hleast);
      [by vm_compute | by vm_compute |].
    exists m. split; [assumption|]. cbn [APInt.VAL] in *.
    specialize (Hleast 4).
    assert (3 < APInt.VAL m) by nia. lia.
Qed.


Lemma denseDynTensorNorm2Sq_value (n w : Z) :
  0 < w -> 2 * w + 64 < UINT_MAX ->
  0 < n < INT64_MAX - 1 ->
  denseDynTensorNorm2Sq (Some (RankedTensorType [n] (IntegerType w Signless))) =
    Ok (APInt.mk (2 * w + ceilLog2 (n + 1)) (n * (maxValue w * maxValue w))).
Proof.
  intros Hw Hbudget Hn. unfold INT64_MAX in Hn.
  unfold denseDynTensorNorm2Sq.
  cbn [getElementType isSignlessInteger hasStaticShape forallb getRank length
       Z.of_nat andb].
  replace (n =? kDynamicSize) with false
    by (symmetry; apply Z.eqb_neq; unfold kDynamicSize; lia).
  change (Z.of_nat 1 =? 1) with true.
  cbn [negb andb assert mbind result_bind].
  change (UINT_MAX >? 8 * 8) with true.
  cbn [assert mbind result_bind].
  unfold getElementTypeBitWidth.
  cbn [getElementType getIntOrFloatBitWidth mbind result_bind].
  rewrite getMaxValue_maxValue by assumption. cbn [mbind result_bind].
  assert (Hpw : 1 < 2 ^ w)
    by (apply (Z.pow_gt_1 2 w); lia).
  assert (Hmax : APInt.valid (APInt.mk w (maxValue w)))
    by (split; cbn [APInt.BitWidth APInt.VAL]; unfold maxValue, UINT_MAX in *; lia).
  rewrite APIntWidthExtendUSq_exact;
    [| assumption
     | cbn [APInt.BitWidth]; change (UINT_MAX / 2) with 2147483647;
       unfold UINT_MAX in *; lia].
  cbn [mbind result_bind APInt.BitWidth APInt.VAL].
  unfold getNumElements.
  cbn [hasStaticShape forallb].
  replace (n =? kDynamicSize) with false
    by (symmetry; apply Z.eqb_neq; unfold kDynamicSize; lia).
  cbn [negb andb assert mbind result_bind fold_left].
  rewrite Z.mul_1_l.
  rewrite (u64_small n) by lia.
  rewrite (u64_small (INT64_MAX - n)) by (unfold INT64_MAX; lia).
  rewrite assert_true by (rewrite Z.gtb_ltb; apply Z.ltb_lt; unfold INT64_MAX; lia).
  cbn [mbind result_bind].
  rewrite (u64_small (n + 1)) by lia.
  destruct (ceilLog2_ceiling (n + 1)) as (Hrange & Hfits & Hmin); [lia|].
  assert (Hbits : 0 < ceilLog2 (n + 1)).
  { destruct (Z.le_gt_cases (ceilLog2 (n + 1)) 0) as [Hle|]; [|assumption].
    replace (ceilLog2 (n + 1)) with 0 in Hfits by lia. cbn in Hfits. lia. }
  rewrite u32_small by (unfold UINT_MAX; lia).
  unfold APInt.make.
  rewrite assert_true by (apply Z.ltb_lt; assumption).
  cbn [mbind result_bind mret result_ret].
  rewrite (Z.mod_small n) by lia.
  rewrite APIntWidthExtendUMul_exact.
  - cbn [APInt.BitWidth APInt.VAL]. do 2 f_equal. lia.
  - destruct Hmax as [_ Hv]. cbn [APInt.VAL APInt.BitWidth] in Hv.
    split; cbn [APInt.BitWidth APInt.VAL]; [unfold UINT_MAX in *; lia|].
    replace (2 * w) with (w + w) by lia.
    rewrite Z.pow_add_r by lia. nia.
  - split; cbn [APInt.BitWidth APInt.VAL]; [unfold UINT_MAX; lia | lia].
  - cbn [APInt.BitWidth]. lia.
Qed.

(** C4 (as amended): for a dot whose encrypted operand is a block argument,
    the only form the rule supports, the dot rule with a plaintext vector
    that is not a constant, of [n >= 1] elements of [w] bits, returns exactly
    [n] times the square of [maxValue w], the count held in
    [ceilLog2 (n + 1)] bits (the least width that holds [n]); for 4 elements
    of 8 bits the squared bound is [4 * 255 * 255 = 260100]. *)
Theorem getSqMANP_Dot_dynamic (op : Operation)
    (operandMANPs : list MANPLatticeValue) (ty : MlirType) (argNumber : nat)
    (v1 : Value) (n w : Z) :
  getOperands op !! 0%nat = Some (BlockArgument ty argNumber) ->
  getOperands op !! 1%nat = Some v1 ->
  dyn_cast_or_null_ConstantOp (getDefiningOp v1) = None ->
  getType v1 = RankedTensorType [n] (IntegerType w Signless) ->
  0 < w -> 2 * w + 64 < UINT_MAX ->
  0 < n < INT64_MAX - 1 ->
  getSqMANP_Dot op operandMANPs =
    Ok (APInt.mk (2 * w + ceilLog2 (n + 1)) (n * (maxValue w * maxValue w)))
  /\ (n < 2 ^ ceilLog2 (n + 1) /\ 2 ^ (ceilLog2 (n + 1) - 1) <= n)
  /\ getSqMANP_Dot dot_dyn_4_i8 operandMANPs = Ok (APInt.mk 19 260100)
  /\ 260100 = 4 * (maxValue 8 * maxValue 8).
Proof.
  intros Hop0 Hop1 Hdyn Hty Hw Hbudget Hn. split; [|split; [|split]].
  - unfold getSqMANP_Dot, getOpOperand. rewrite Hop0, Hop1.
    cbn [mbind result_bind isa_BlockArgument assert]. rewrite Hdyn, Hty.
    cbn [dyn_cast_TensorType isa_TensorType].
    now apply denseDynTensorNorm2Sq_value.
  - unfold INT64_MAX in Hn.
    destruct (ceilLog2_ceiling (n + 1)) as (_ & Hfits & Hmin); lia.
  - reflexivity.
  - reflexivity.
Qed.

(** ** The visit of an operation that has a rule *)

(** When the rule of a tracked operation returns the squared norm [n] and the
    lattice element of its result is still uninitialized, the visit records
    [n] for the result and sets the attribute [MANP] to the least root of
    [n]. *)
Lemma visitOperation_annotates (op : Operation)
    (operands : list MANPLatticeValue) (st : AnalysisState) (n : APInt.t) :
  (opName op = HLFHE_Dot /\ getSqMANP_Dot op operands = Ok n)
  \/ (opName op = HLFHE_AddEintIntOp /\ getSqMANP_AddEintIntOp op operands = Ok n)
  \/ (opName op = HLFHE_AddEintOp /\ getSqMANP_AddEintOp op operands = Ok n)
  \/ (opName op = HLFHE_SubIntEintOp /\ getSqMANP_SubIntEintOp op operands = Ok n)
  \/ (opName op = HLFHE_MulEintIntOp /\ getSqMANP_MulEintIntOp op operands = Ok n) ->
  latticeElements st !! opId op = None ->
  APInt.valid n -> APInt.BitWidth n < UINT_MAX / 2 ->
  exists m st',
    visitOperation false op operands st = (st', Ok Change)
    /\ APIntCeilSqrt n = Ok m
    /\ latticeElements st' !! opId op = Some (mkMANPLatticeValue (Some n))
    /\ setAttrs st' !! (opId op, "MANP") =
         Some (IntegerAttr (IntegerType (APInt.BitWidth m) Unsigned) m)
    /\ APInt.VAL n <= APInt.VAL m * APInt.VAL m
    /\ (forall k, 0 <= k -> APInt.VAL n <= k * k -> APInt.VAL m <= k).
Proof.
  intros Hrule Hfresh Hn Hw.
  destruct (APIntCeilSqrt_least n Hn Hw) as (m & Hm & _ & Hge & Hleast).
  exists m. eexists. split.
  - unfold visitOperation, LatticeElement_join.
    destruct Hrule as [[-> ->] | [[-> ->] | [[-> ->] | [[-> ->] | [-> ->]]]]];
      cbn [fmap result_fmap]; rewrite Hfresh; cbn [mret result_ret]; rewrite Hm;
      reflexivity.
  - split; [assumption|]. cbn [latticeElements setAttrs setAttr].
    rewrite !lookup_insert_eq. repeat split; assumption.
Qed.

(** * Further properties of the pass *)

(** ** Width-extending arithmetic *)

Lemma APIntWidthExtendULT_compares_values_aux (a b : APInt.t) :
  exists lt, APIntWidthExtendULT a b = Ok lt.
Proof.
  unfold APIntWidthExtendULT.
  destruct (APInt.BitWidth a <? APInt.BitWidth b) eqn:Hlt.
  - unfold APInt.zext. rewrite Hlt. cbn [assert mbind result_bind mret result_ret].
    unfold APInt.ult. cbn [APInt.BitWidth APInt.VAL].
    rewrite Z.eqb_refl. eexists. reflexivity.
  - destruct (APInt.BitWidth a >? APInt.BitWidth b) eqn:Hgt.
    + unfold APInt.zext. rewrite Z.gtb_ltb in Hgt. rewrite Hgt.
      cbn [assert mbind result_bind mret result_ret].
      unfold APInt.ult. cbn [APInt.BitWidth APInt.VAL].
      rewrite Z.eqb_refl. eexists. reflexivity.
    + unfold APInt.ult.
      rewrite assert_true; [eexists; reflexivity|].
      apply Z.eqb_eq. rewrite Z.gtb_ltb in Hgt.
      apply Z.ltb_ge in Hlt, Hgt. lia.
Qed.

(** X1: [APIntWidthExtendULT] never aborts, whatever the two widths are, and
    answers by the unsigned values alone; it is a strict order on them. *)
Theorem APIntWidthExtendULT_compares_values (a b : APInt.t) :
  exists lt, APIntWidthExtendULT a b = Ok lt
    /\ (lt = true <-> APInt.VAL a < APInt.VAL b)
    /\ (APIntWidthExtendULT b a = Ok true -> lt = false)
    /\ APIntWidthExtendULT a a = Ok false.
Proof.
  assert (Hany : forall x y, APIntWidthExtendULT x y = Ok (APInt.VAL x <? APInt.VAL y)).
  { intros x y. unfold APIntWidthExtendULT.
    destruct (APInt.BitWidth x <? APInt.BitWidth y) eqn:Hlt.
    - unfold APInt.zext. rewrite Hlt. cbn [assert mbind result_bind mret result_ret].
      unfold APInt.ult. cbn [APInt.BitWidth APInt.VAL].
      rewrite Z.eqb_refl. reflexivity.
    - destruct (APInt.BitWidth x >? APInt.BitWidth y) eqn:Hgt.
      + unfold APInt.zext. rewrite Z.gtb_ltb in Hgt. rewrite Hgt.
        cbn [assert mbind result_bind mret result_ret].
        unfold APInt.ult. cbn [APInt.BitWidth APInt.VAL].
        rewrite Z.eqb_refl. reflexivity.
      + unfold APInt.ult.
        rewrite assert_true; [reflexivity|].
        apply Z.eqb_eq. rewrite Z.gtb_ltb in Hgt.
        apply Z.ltb_ge in Hlt, Hgt. lia. }
  exists (APInt.VAL a <? APInt.VAL b). rewrite !Hany.
  split; [reflexivity|]. split; [apply Z.ltb_lt|].
  split.
  - intros Hba. injection Hba as Hba. apply Z.ltb_lt in Hba. apply Z.ltb_ge. lia.
  - f_equal. apply Z.ltb_irrefl.
Qed.

Lemma APIntWidthExtendUAdd_over_budget (a b : APInt.t) :
  APInt.valid a -> APInt.valid b ->
  UINT_MAX - 1 <= Z.max (APInt.BitWidth a) (APInt.BitWidth b) ->
  APIntWidthExtendUAdd a b =
    Abort "std::numeric_limits<unsigned>::max() - maxBits > 1".
Proof.
  intros [Hwa _] [Hwb _] Hover. unfold APIntWidthExtendUAdd. cbv zeta.
  rewrite (u32_small (UINT_MAX - Z.max (APInt.BitWidth a) (APInt.BitWidth b))) by lia.
  replace (UINT_MAX - Z.max (APInt.BitWidth a) (APInt.BitWidth b) >? 1) with false
    by (symmetry; rewrite Z.gtb_ltb; apply Z.ltb_ge; lia).
  reflexivity.
Qed.

Lemma APIntWidthExtendUMul_over_budget (a b : APInt.t) :
  APInt.valid a -> APInt.valid b ->
  UINT_MAX <= APInt.BitWidth a + APInt.BitWidth b ->
  APIntWidthExtendUMul a b =
    Abort "Required number of bits cannot be represented with an APInt".
Proof.
  intros [Hwa _] [Hwb _] Hover. unfold APIntWidthExtendUMul. cbv zeta.
  rewrite (u32_small (UINT_MAX - Z.max (APInt.BitWidth a) (APInt.BitWidth b))) by lia.
  replace (UINT_MAX - Z.max (APInt.BitWidth a) (APInt.BitWidth b)
           >? Z.min (APInt.BitWidth a) (APInt.BitWidth b)) with false
    by (symmetry; rewrite Z.gtb_ltb; apply Z.ltb_ge; lia).
  reflexivity.
Qed.

Lemma APIntWidthExtendUSq_over_budget (i : APInt.t) :
  UINT_MAX / 2 <= APInt.BitWidth i ->
  APIntWidthExtendUSq i =
    Abort "Required number of bits cannot be represented with an APInt".
Proof.
  intros Hover. unfold APIntWidthExtendUSq.
  replace (APInt.BitWidth i <? UINT_MAX / 2) with false
    by (symmetry; apply Z.ltb_ge; lia).
  reflexivity.
Qed.

Lemma valid_square (w v : Z) :
  0 < w -> 2 * w <= UINT_MAX -> 0 <= v < 2 ^ w ->
  APInt.valid (APInt.mk (2 * w) (v * v)).
Proof.
  intros Hw Hmax Hv. split; cbn [APInt.BitWidth APInt.VAL]; [lia|].
  replace (2 * w) with (w + w) by lia. rewrite Z.pow_add_r by lia. nia.
Qed.

(** X2: the square is the product of the operand with itself: within the
    bound that [APIntWidthExtendUSq] asserts the two functions return the
    same exact value in twice the width, and that value fits its width. At
    the one width that [APIntWidthExtendUMul] still accepts, the square
    aborts. *)
Theorem APIntWidthExtendUSq_is_self_product (i : APInt.t) :
  APInt.valid i ->
  (APInt.BitWidth i < UINT_MAX / 2 ->
     APIntWidthExtendUSq i = APIntWidthExtendUMul i i
     /\ APIntWidthExtendUSq i =
          Ok (APInt.mk (2 * APInt.BitWidth i) (APInt.VAL i * APInt.VAL i))
     /\ APInt.valid (APInt.mk (2 * APInt.BitWidth i) (APInt.VAL i * APInt.VAL i)))
  /\ (APInt.BitWidth i = UINT_MAX / 2 ->
     APIntWidthExtendUSq i =
       Abort "Required number of bits cannot be represented with an APInt"
     /\ APIntWidthExtendUMul i i =
          Ok (APInt.mk (2 * APInt.BitWidth i) (APInt.VAL i * APInt.VAL i))).
Proof.
  intros Hi. split.
  - intros Hw. rewrite APIntWidthExtendUSq_exact by assumption.
    change (UINT_MAX / 2) with 2147483647 in Hw.
    rewrite APIntWidthExtendUMul_exact by (try assumption; unfold UINT_MAX; lia).
    split; [do 2 f_equal; lia|]. split; [reflexivity|].
    destruct Hi as [Hwi Hvi]. apply valid_square; unfold UINT_MAX in *; lia.
  - intros Hw. split; [apply APIntWidthExtendUSq_over_budget; lia|].
    change (UINT_MAX / 2) with 2147483647 in Hw.
    rewrite APIntWidthExtendUMul_exact by (try assumption; unfold UINT_MAX; lia).
    do 2 f_equal. lia.
Qed.

(** X3: the sum and the product are never truncated: on valid operands each
    function either aborts (exactly when the result width leaves the budget
    it asserts) or returns the exact value, which fits the width of the
    result and is no less than either operand of a sum. *)
Theorem width_extension_never_truncates (a b : APInt.t) :
  APInt.valid a -> APInt.valid b ->
  (forall r, APIntWidthExtendUAdd a b = Ok r ->
     APInt.VAL r = APInt.VAL a + APInt.VAL b /\ APInt.valid r
     /\ APInt.VAL a <= APInt.VAL r /\ APInt.VAL b <= APInt.VAL r)
  /\ (forall r, APIntWidthExtendUMul a b = Ok r ->
     APInt.VAL r = APInt.VAL a * APInt.VAL b /\ APInt.valid r)
  /\ ((exists r, APIntWidthExtendUAdd a b = Ok r) <->
      Z.max (APInt.BitWidth a) (APInt.BitWidth b) < UINT_MAX - 1)
  /\ ((exists r, APIntWidthExtendUMul a b = Ok r) <->
      APInt.BitWidth a + APInt.BitWidth b < UINT_MAX).
Proof.
  intros Ha Hb.
  assert (Hadd : forall r, APIntWidthExtendUAdd a b = Ok r ->
            Z.max (APInt.BitWidth a) (APInt.BitWidth b) < UINT_MAX - 1).
  { intros r Hr.
    destruct (Z.lt_ge_cases (Z.max (APInt.BitWidth a) (APInt.BitWidth b)) (UINT_MAX - 1))
      as [|Hover]; [assumption|].
    rewrite APIntWidthExtendUAdd_over_budget in Hr by assumption. discriminate. }
  assert (Hmul : forall r, APIntWidthExtendUMul a b = Ok r ->
            APInt.BitWidth a + APInt.BitWidth b < UINT_MAX).
  { intros r Hr.
    destruct (Z.lt_ge_cases (APInt.BitWidth a + APInt.BitWidth b) UINT_MAX)
      as [|Hover]; [assumption|].
    rewrite APIntWidthExtendUMul_over_budget in Hr by assumption. discriminate. }
  destruct Ha as [Hwa Hva], Hb as [Hwb Hvb].
  split; [|split; [|split]].
  - intros r Hr. pose proof (Hadd r Hr) as Hw.
    rewrite APIntWidthExtendUAdd_exact in Hr by (try split; assumption).
    injection Hr as <-. cbn [APInt.VAL APInt.BitWidth].
    split; [reflexivity|]. split; [|lia].
    split; cbn [APInt.BitWidth APInt.VAL]; [lia|].
    assert (2 ^ APInt.BitWidth a
            <= 2 ^ Z.max (APInt.BitWidth a) (APInt.BitWidth b))
      by (apply Z.pow_le_mono_r; lia).
    assert (2 ^ APInt.BitWidth b
            <= 2 ^ Z.max (APInt.BitWidth a) (APInt.BitWidth b))
      by (apply Z.pow_le_mono_r; lia).
    rewrite Z.pow_add_r by lia. change (2 ^ 1) with 2. lia.
  - intros r Hr. pose proof (Hmul r Hr) as Hw.
    rewrite APIntWidthExtendUMul_exact in Hr by (try split; assumption).
    injection Hr as <-. cbn [APInt.VAL APInt.BitWidth].
    split; [reflexivity|].
    split; cbn [APInt.BitWidth APInt.VAL]; [lia|].
    rewrite Z.pow_add_r by lia. nia.
  - split; [intros [r Hr]; eauto|].
    intros Hw. eexists. apply APIntWidthExtendUAdd_exact; try split; assumption.
  - split; [intros [r Hr]; eauto|].
    intros Hw. eexists. apply APIntWidthExtendUMul_exact; try split; assumption.
Qed.

(** ** The ceiling square root *)

Lemma APIntCeilSqrt_width (i r : APInt.t) :
  APInt.valid i -> APInt.BitWidth i < UINT_MAX / 2 ->
  APIntCeilSqrt i = Ok r ->
  APInt.BitWidth r = APInt.BitWidth i \/ APInt.BitWidth r = APInt.BitWidth i + 1.
Proof.
  intros Hi Hw. destruct (APInt_sqrt_valid i Hi) as [Hres _].
  assert (Hwi : 0 < APInt.BitWidth i) by (destruct Hi; lia).
  change (UINT_MAX / 2) with 2147483647 in Hw.
  unfold APIntCeilSqrt.
  rewrite APIntWidthExtendUSq_exact
    by (try assumption; cbn; change (UINT_MAX / 2) with 2147483647; lia).
  cbn [mbind result_bind].
  destruct (APIntWidthExtendULT_compares_values_aux
              (APInt.mk (2 * APInt.BitWidth (APInt_sqrt i))
                        (APInt.VAL (APInt_sqrt i) * APInt.VAL (APInt_sqrt i))) i)
    as [lt ->].
  cbn [mbind result_bind]. destruct lt.
  - change (APInt.make 1 1) with (Ok (APInt.mk 1 1)). cbn [mbind result_bind].
    rewrite APIntWidthExtendUAdd_exact;
      [| assumption | by vm_compute
       | cbn [APInt_sqrt APInt.BitWidth]; unfold UINT_MAX; lia].
    intros Hr. injection Hr as <-. cbn [APInt.BitWidth APInt_sqrt]. right. lia.
  - intros Hr. injection Hr as <-. left. reflexivity.
Qed.

(** X4: the ceiling square root undoes the square: for a valid [k],
    [APIntCeilSqrt] of [APIntWidthExtendUSq k] holds the value of [k]. *)
Theorem APIntCeilSqrt_of_square (k : APInt.t) :
  APInt.valid k -> 2 * APInt.BitWidth k < UINT_MAX / 2 ->
  exists sq r,
    APIntWidthExtendUSq k = Ok sq
    /\ APIntCeilSqrt sq = Ok r
    /\ APInt.VAL r = APInt.VAL k.
Proof.
  intros Hk Hw. change (UINT_MAX / 2) with 2147483647 in Hw.
  assert (Hk' := Hk). destruct Hk' as [Hwk Hvk].
  rewrite APIntWidthExtendUSq_exact
    by (try assumption; change (UINT_MAX / 2) with 2147483647; lia).
  destruct (APIntCeilSqrt_least
              (APInt.mk (2 * APInt.BitWidth k) (APInt.VAL k * APInt.VAL k)))
    as (r & Hr & [_ Hr0] & Hge & Hleast).
  - apply valid_square; unfold UINT_MAX in *; lia.
  - cbn [APInt.BitWidth]. change (UINT_MAX / 2) with 2147483647. lia.
  - exists (APInt.mk (2 * APInt.BitWidth k) (APInt.VAL k * APInt.VAL k)), r.
    split; [reflexivity|]. split; [assumption|].
    cbn [APInt.VAL] in Hge, Hleast.
    specialize (Hleast (APInt.VAL k)). nia.
Qed.

(** X5: the ceiling square root is monotone in the value, whatever the
    widths of the two operands. *)
Theorem APIntCeilSqrt_monotone (a b : APInt.t) :
  APInt.valid a -> APInt.valid b ->
  APInt.BitWidth a < UINT_MAX / 2 -> APInt.BitWidth b < UINT_MAX / 2 ->
  APInt.VAL a <= APInt.VAL b ->
  exists ra rb,
    APIntCeilSqrt a = Ok ra /\ APIntCeilSqrt b = Ok rb
    /\ APInt.VAL ra <= APInt.VAL rb.
Proof.
  intros Ha Hb Hwa Hwb Hle.
  destruct (APIntCeilSqrt_least a Ha Hwa) as (ra & Hra & _ & _ & Hleast).
  destruct (APIntCeilSqrt_least b Hb Hwb) as (rb & Hrb & [_ Hrb0] & Hge & _).
  exists ra, rb. split; [assumption|]. split; [assumption|].
  apply Hleast; lia.
Qed.

(** X6: the ceiling square root of a valid [APInt] within the bound the
    square asserts always returns: a valid [APInt] of the width of the
    operand or one bit more, whose value does not exceed the operand's. *)
Theorem APIntCeilSqrt_returns_valid (i : APInt.t) :
  APInt.valid i -> APInt.BitWidth i < UINT_MAX / 2 ->
  exists r, APIntCeilSqrt i = Ok r
    /\ APInt.valid r
    /\ (APInt.BitWidth r = APInt.BitWidth i
        \/ APInt.BitWidth r = APInt.BitWidth i + 1)
    /\ APInt.VAL r <= APInt.VAL i.
Proof.
  intros Hi Hw.
  destruct (APIntCeilSqrt_least i Hi Hw) as (r & Hr & Hvalid & Hge & Hleast).
  exists r. split; [assumption|]. split; [assumption|].
  split; [eapply APIntCeilSqrt_width; eassumption|].
  destruct Hi as [_ Hv]. apply Hleast; nia.
Qed.

(** ** The width of a count *)

(** X7: for every non-zero 64-bit [v], [ceilLog2 v] is the ceiling of the
    binary logarithm of [v]: the least [r] with [v <= 2 ^ r]; on a power of
    two it is the exponent. *)
Theorem ceilLog2_least_exponent (v : Z) :
  0 < v < 2 ^ 64 ->
  0 <= ceilLog2 v <= 64
  /\ v <= 2 ^ ceilLog2 v
  /\ (forall r, 0 <= r -> v <= 2 ^ r -> ceilLog2 v <= r)
  /\ (forall k, 0 <= k -> v = 2 ^ k -> ceilLog2 v = k).
Proof.
  intros Hv.
  destruct (ceilLog2_ceiling v Hv) as (Hrange & Hfits & Hmin).
  assert (Hleast : forall r, 0 <= r -> v <= 2 ^ r -> ceilLog2 v <= r).
  { intros r Hr Hvr.
    destruct (Z.le_gt_cases (ceilLog2 v) r) as [|Hgt]; [assumption|].
    assert (1 < v).
    { destruct (Z.le_gt_cases v 1); [|assumption].
      assert (v = 1) by lia. subst v. change (ceilLog2 1) with 0 in Hgt. lia. }
    assert (2 ^ r <= 2 ^ (ceilLog2 v - 1)) by (apply Z.pow_le_mono_r; lia).
    specialize (Hmin ltac:(assumption)). lia. }
  split; [assumption|]. split; [assumption|]. split; [assumption|].
  intros k Hk ->.
  assert (ceilLog2 (2 ^ k) <= k) by (apply Hleast; lia).
  destruct (Z.le_gt_cases k (ceilLog2 (2 ^ k))) as [|Hlt]; [lia|].
  assert (2 ^ ceilLog2 (2 ^ k) < 2 ^ k) by (apply Z.pow_lt_mono_r; lia).
  lia.
Qed.

(** ** Constant against dynamic plaintext operands *)

(** X8: the conservative squared norm of a [w]-bit type is strictly above
    the square of every constant of [w] bits, so a rule never returns less
    for a dynamic operand than for a constant one of the same type. *)
Theorem conservativeIntNorm2Sq_dominates_constant (k : APInt.t) (w : Z) :
  APInt.valid k -> APInt.BitWidth k = w -> w < 2147483646 ->
  exists c d,
    APIntWidthExtendUSq k = Ok c
    /\ conservativeIntNorm2Sq (IntegerType w Signless) = Ok d
    /\ APInt.VAL c < APInt.VAL d.
Proof.
  intros Hk Hwk Hw. assert (Hk' := Hk). destruct Hk' as [Hw0 Hv]. rewrite Hwk in *.
  rewrite APIntWidthExtendUSq_exact
    by (try assumption; rewrite Hwk; change (UINT_MAX / 2) with 2147483647; lia).
  rewrite conservativeIntNorm2Sq_value by lia.
  do 2 eexists. split; [reflexivity|]. split; [reflexivity|].
  cbn [APInt.VAL]. nia.
Qed.

Lemma sumOfSquares_bound (vals : list APInt.t) (w : Z) :
  (forall val, val ∈ vals -> 0 <= APInt.VAL val <= maxValue w) ->
  sumOfSquares (APInt.VAL <$> vals)
    <= Z.of_nat (length vals) * (maxValue w * maxValue w).
Proof.
  induction vals as [|val rest IH]; intros Hvals.
  - cbn. lia.
  - cbn [fmap list_fmap sumOfSquares foldr length].
    rewrite Nat2Z.inj_succ.
    assert (Hval : 0 <= APInt.VAL val <= maxValue w) by (apply Hvals; left).
    assert (Hrest : sumOfSquares (APInt.VAL <$> rest)
                    <= Z.of_nat (length rest) * (maxValue w * maxValue w))
      by (apply IH; intros v Hin; apply Hvals; right; assumption).
    unfold sumOfSquares in Hrest. nia.
Qed.

(** X9: for a plaintext vector of [n] elements of [w] bits, the bound the
    dot rule uses for a dynamic vector is at least the bound it uses for any
    constant vector of that type. *)
Theorem denseDynTensorNorm2Sq_dominates_constant (cstOp : Operation)
    (aty : MlirType) (vals : list APInt.t) (n w : Z) :
  getAttr (getAttrs cstOp) "value" = Some (DenseIntElementsAttr aty vals) ->
  resultType cstOp = RankedTensorType [n] (IntegerType w Signless) ->
  Z.of_nat (length vals) = n ->
  (forall val, val ∈ vals -> APInt.valid val /\ APInt.BitWidth val = w) ->
  0 < n < INT64_MAX - 1 ->
  2 * w + n < UINT_MAX - 1 -> 2 * w + 64 < UINT_MAX ->
  exists c d,
    denseCstTensorNorm2Sq cstOp = Ok c
    /\ denseDynTensorNorm2Sq (Some (resultType cstOp)) = Ok d
    /\ APInt.VAL c <= APInt.VAL d.
Proof.
  intros Hattr Hty Hlen Hvals Hn Hb1 Hb2.
  assert (Hw : 0 < w).
  { destruct vals as [|val rest]; [cbn in Hlen; lia|].
    destruct (Hvals val) as [[Hw _] <-]; [left|]. lia. }
  destruct (denseCstTensorNorm2Sq_sum cstOp aty vals [n] w Hattr Hty)
    as (c & Hc & _ & Hsum).
  { intros val Hin. destruct (Hvals val Hin) as [Hv Hwv].
    split; [assumption|]. rewrite Hwv, Hlen. assumption. }
  exists c. eexists. split; [assumption|].
  rewrite Hty, denseDynTensorNorm2Sq_value by assumption.
  split; [reflexivity|]. cbn [APInt.VAL]. rewrite Hsum, <- Hlen.
  apply sumOfSquares_bound.
  intros val Hin. destruct (Hvals val Hin) as [[_ Hv] Hwv].
  rewrite Hwv in Hv. unfold maxValue. lia.
Qed.

(** ** The scalar rules on constants, and what every rule requires *)

(** X10: with a constant plaintext operand [k], the rules of [add_eint_int]
    and of [sub_int_eint] both return exactly [k * k + p], [p] the squared
    norm bound of the encrypted operand. *)
Theorem additive_rules_constant (opAdd opSub cstOp : Operation) (k p : APInt.t)
    (w : Z) (ty : MlirType) (other : MANPLatticeValue) :
  getOperands opAdd !! 1%nat = Some (OpResult cstOp) ->
  getOperands opSub !! 0%nat = Some (OpResult cstOp) ->
  opName cstOp = Std_ConstantOp ->
  resultType cstOp = IntegerType w Signless ->
  getAttr (getAttrs cstOp) "value" = Some (IntegerAttr ty k) ->
  APInt.valid k -> APInt.valid p ->
  Z.max (2 * APInt.BitWidth k) (APInt.BitWidth p) < UINT_MAX - 1 ->
  getSqMANP_AddEintIntOp opAdd [mkMANPLatticeValue (Some p); other] =
    Ok (APInt.mk (Z.max (2 * APInt.BitWidth k) (APInt.BitWidth p) + 1)
                 (APInt.VAL k * APInt.VAL k + APInt.VAL p))
  /\ getSqMANP_SubIntEintOp opSub [other; mkMANPLatticeValue (Some p)] =
    Ok (APInt.mk (Z.max (2 * APInt.BitWidth k) (APInt.BitWidth p) + 1)
                 (APInt.VAL k * APInt.VAL k + APInt.VAL p)).
Proof.
  intros HopA HopS Hname Hty Hattr Hk Hp Hw.
  assert (Hk' := Hk). destruct Hk' as [Hwk Hvk].
  assert (Hsq : APIntWidthExtendUSq k =
                Ok (APInt.mk (2 * APInt.BitWidth k) (APInt.VAL k * APInt.VAL k)))
    by (apply APIntWidthExtendUSq_exact;
        [assumption | change (UINT_MAX / 2) with 2147483647; unfold UINT_MAX in *; lia]).
  assert (Hvsq : APInt.valid (APInt.mk (2 * APInt.BitWidth k) (APInt.VAL k * APInt.VAL k)))
    by (apply valid_square; unfold UINT_MAX in *; lia).
  split.
  - unfold getSqMANP_AddEintIntOp, getOpOperand. rewrite HopA.
    cbn [mbind result_bind getType getDefiningOp dyn_cast_or_null_ConstantOp].
    rewrite Hty, Hname. cbn.
    unfold getAttrOfType_IntegerAttr. rewrite Hattr. cbn [getValue mbind result_bind].
    rewrite Hsq. cbn [mbind result_bind].
    now apply APIntWidthExtendUAdd_exact.
  - unfold getSqMANP_SubIntEintOp, getOpOperand. rewrite HopS.
    cbn [mbind result_bind getType getDefiningOp dyn_cast_or_null_ConstantOp].
    rewrite Hty, Hname. cbn.
    unfold getAttrOfType_IntegerAttr. rewrite Hattr. cbn [getValue mbind result_bind].
    rewrite Hsq. cbn [mbind result_bind].
    now apply APIntWidthExtendUAdd_exact.
Qed.

(** X11: the rule of [add_eint] returns a bound only when it is given exactly
    two operand lattice values that both hold a norm; in every other case it
    aborts on its assertion and invents no default. *)
Theorem getSqMANP_AddEintOp_needs_both_norms (op : Operation)
    (operandMANPs : list MANPLatticeValue) :
  (forall r, getSqMANP_AddEintOp op operandMANPs = Ok r ->
     exists p q, operandMANPs =
                   [mkMANPLatticeValue (Some p); mkMANPLatticeValue (Some q)])
  /\ (length operandMANPs <> 2%nat
      \/ operandMANP operandMANPs 0 = None
      \/ operandMANP operandMANPs 1 = None ->
      getSqMANP_AddEintOp op operandMANPs =
        Abort "Missing squared Minimal Arithmetic Noise Padding for encrypted operands").
Proof.
  split.
  - intros r Hr. unfold getSqMANP_AddEintOp in Hr.
    destruct operandMANPs as [|[[p|]] [|[[q|]] [|third rest]]];
      try discriminate Hr.
    eauto.
  - intros Hbad. unfold getSqMANP_AddEintOp.
    destruct operandMANPs as [|[[p|]] [|[[q|]] [|third rest]]];
      try reflexivity.
    exfalso. destruct Hbad as [Hlen | [H0 | H1]];
      [apply Hlen; reflexivity | discriminate H0 | discriminate H1].
Qed.

(** X12: each scalar rule returns a bound only when its plaintext operand has
    a signless integer type and the lattice value of its encrypted operand,
    one of exactly two, holds a norm. *)
Theorem scalar_rules_requirements (op : Operation)
    (operandMANPs : list MANPLatticeValue) (r : APInt.t) :
  (getSqMANP_AddEintIntOp op operandMANPs = Ok r ->
     exists v p other,
       getOperands op !! 1%nat = Some v
       /\ isSignlessInteger (getType v) = true
       /\ operandMANPs = [mkMANPLatticeValue (Some p); other])
  /\ (getSqMANP_SubIntEintOp op operandMANPs = Ok r ->
     exists v p other,
       getOperands op !! 0%nat = Some v
       /\ isSignlessInteger (getType v) = true
       /\ operandMANPs = [other; mkMANPLatticeValue (Some p)])
  /\ (getSqMANP_MulEintIntOp op operandMANPs = Ok r ->
     exists v p other,
       getOperands op !! 1%nat = Some v
       /\ isSignlessInteger (getType v) = true
       /\ operandMANPs = [mkMANPLatticeValue (Some p); other]).
Proof.
  split; [|split]; intros Hr.
  - unfold getSqMANP_AddEintIntOp, getOpOperand in Hr.
    destruct (getOperands op !! 1%nat) as [v|]; [|discriminate Hr].
    cbn [mbind result_bind] in Hr.
    destruct (isSignlessInteger (getType v)) eqn:Hty; [|discriminate Hr].
    destruct operandMANPs as [|[[p|]] [|other [|third rest]]];
      try discriminate Hr.
    eauto 7.
  - unfold getSqMANP_SubIntEintOp, getOpOperand in Hr.
    destruct (getOperands op !! 0%nat) as [v|]; [|discriminate Hr].
    cbn [mbind result_bind] in Hr.
    destruct (isSignlessInteger (getType v)) eqn:Hty; [|discriminate Hr].
    destruct operandMANPs as [|other [|[[p|]] [|third rest]]];
      try discriminate Hr.
    eauto 7.
  - unfold getSqMANP_MulEintIntOp, getOpOperand in Hr.
    destruct (getOperands op !! 1%nat) as [v|]; [|discriminate Hr].
    cbn [mbind result_bind] in Hr.
    destruct (isSignlessInteger (getType v)) eqn:Hty; [|discriminate Hr].
    destruct operandMANPs as [|[[p|]] [|other [|third rest]]];
      try discriminate Hr.
    eauto 7.
Qed.

(** ** What the dot rule requires of the plaintext vector *)

(** X13: [denseCstTensorNorm2Sq] returns a bound only for a constant whose
    [value] attribute is a dense integer attribute and whose type is a
    tensor of signless integers; for an empty dense attribute the bound is
    the 1-bit zero. *)
Theorem denseCstTensorNorm2Sq_requirements (cstOp : Operation) (r : APInt.t) :
  denseCstTensorNorm2Sq cstOp = Ok r ->
  exists aty vals e,
    getAttr (getAttrs cstOp) "value" = Some (DenseIntElementsAttr aty vals)
    /\ getElementType (resultType cstOp) = Ok e
    /\ isSignlessInteger e = true
    /\ (vals = [] -> r = APInt.mk 1 0).
Proof.
  unfold denseCstTensorNorm2Sq, getAttrOfType_DenseIntElementsAttr. intros Hr.
  destruct (getAttr (getAttrs cstOp) "value") as [[aty k | aty vals | ]|];
    try discriminate Hr.
  destruct (isa_TensorType (resultType cstOp)); [|discriminate Hr].
  cbn [bool_decide_pack andb assert mbind result_bind] in Hr.
  rewrite assert_true in Hr
    by (apply andb_true_intro; split; [apply bool_decide_eq_true; eauto | reflexivity]).
  cbn [mbind result_bind] in Hr.
  destruct (getElementType (resultType cstOp)) as [e|msg] eqn:Helt; [|discriminate Hr].
  cbn [mbind result_bind] in Hr.
  destruct (isSignlessInteger e) eqn:He; [|discriminate Hr].
  exists aty, vals, e.
  split; [reflexivity|]. split; [reflexivity|]. split; [exact He|].
  intros ->. cbn in Hr. injection Hr as <-. reflexivity.
Qed.

(** X14: [denseDynTensorNorm2Sq] returns a bound only for a ranked tensor
    type of rank 1 whose one dimension is static and whose elements are
    signless integers of a positive width below half of [UINT_MAX]; a null,
    unranked, dynamically shaped or higher-rank type aborts. *)
Theorem denseDynTensorNorm2Sq_requirements (tTy : option MlirType) (r : APInt.t) :
  denseDynTensorNorm2Sq tTy = Ok r ->
  exists n w,
    tTy = Some (RankedTensorType [n] (IntegerType w Signless))
    /\ n <> kDynamicSize
    /\ 0 < w < UINT_MAX / 2.
Proof.
  unfold denseDynTensorNorm2Sq. intros Hr.
  destruct tTy as [[w s | w | shape e | e | ]|]; try discriminate Hr.
  - cbn [getElementType getRank hasStaticShape] in Hr.
    destruct e as [w s | | | | ]; try discriminate Hr.
    destruct s; try discriminate Hr.
    destruct shape as [|n [|n' shape]].
    + cbn in Hr. discriminate Hr.
    + cbn [isSignlessInteger forallb andb length Z.of_nat] in Hr.
      destruct (n =? kDynamicSize) eqn:Hn; [discriminate Hr|].
      apply Z.eqb_neq in Hn.
      change (Z.of_nat 1 =? 1) with true in Hr.
      change (UINT_MAX >? 8 * 8) with true in Hr.
      cbn [negb andb assert mbind result_bind] in Hr.
      unfold getElementTypeBitWidth in Hr.
      cbn [getElementType getIntOrFloatBitWidth mbind result_bind] in Hr.
      unfold APInt.getMaxValue in Hr.
      destruct (0 <? w) eqn:Hw; [|discriminate Hr].
      apply Z.ltb_lt in Hw.
      cbn [assert mbind result_bind mret result_ret] in Hr.
      unfold APIntWidthExtendUSq in Hr. cbn [APInt.BitWidth] in Hr.
      destruct (w <? UINT_MAX / 2) eqn:Hhalf; [|discriminate Hr].
      apply Z.ltb_lt in Hhalf. exists n, w. repeat split; assumption.
    + cbn [isSignlessInteger forallb andb length] in Hr.
      replace (Z.of_nat (S (S (length shape))) =? 1) with false in Hr
        by (symmetry; apply Z.eqb_neq; lia).
      rewrite !andb_false_r in Hr. discriminate Hr.
  - cbn [getElementType getRank hasStaticShape] in Hr.
    rewrite andb_false_r in Hr. discriminate Hr.
Qed.

Lemma denseCstTensorNorm2Sq_loop_width (w : Z) (vals : list APInt.t) :
  forall accu,
  APInt.valid accu -> 2 * w <= APInt.BitWidth accu ->
  APInt.BitWidth accu + Z.of_nat (length vals) < UINT_MAX - 1 ->
  (forall val, val ∈ vals -> APInt.valid val /\ APInt.BitWidth val = w) ->
  exists r, denseCstTensorNorm2Sq_loop vals accu = Ok r
    /\ APInt.BitWidth r = APInt.BitWidth accu + Z.of_nat (length vals).
Proof.
  induction vals as [|val rest IH]; intros accu Haccu Hwide Hbudget Hvals.
  - exists accu. cbn. split; [reflexivity | lia].
  - destruct (Hvals val) as [Hval Hwv]; [left|].
    cbn [length] in *. rewrite Nat2Z.inj_succ in *.
    assert (Hval' := Hval). destruct Hval' as [Hw0 Hv].
    assert (Haccu' := Haccu). destruct Haccu' as [Hwa Hva].
    cbn [denseCstTensorNorm2Sq_loop].
    rewrite APIntWidthExtendUSq_exact
      by (try assumption; change (UINT_MAX / 2) with 2147483647;
          unfold UINT_MAX in *; lia).
    cbn [mbind result_bind].
    assert (Hsq : APInt.valid (APInt.mk (2 * APInt.BitWidth val)
                                        (APInt.VAL val * APInt.VAL val)))
      by (apply valid_square; unfold UINT_MAX in *; lia).
    rewrite APIntWidthExtendUAdd_exact
      by (try assumption; cbn [APInt.BitWidth]; lia).
    cbn [mbind result_bind APInt.BitWidth APInt.VAL].
    replace (Z.max (APInt.BitWidth accu) (2 * APInt.BitWidth val))
      with (APInt.BitWidth accu) by lia.
    destruct (IH (APInt.mk (APInt.BitWidth accu + 1)
                           (APInt.VAL accu + APInt.VAL val * APInt.VAL val)))
      as (r & Hr & Hwr).
    + destruct Hsq as [_ Hvs]. cbn [APInt.BitWidth APInt.VAL] in Hvs.
      split; cbn [APInt.BitWidth APInt.VAL]; [unfold UINT_MAX in *; lia|].
      assert (2 ^ (2 * APInt.BitWidth val) <= 2 ^ APInt.BitWidth accu)
        by (apply Z.pow_le_mono_r; lia).
      rewrite Z.pow_add_r by lia. change (2 ^ 1) with 2. lia.
    + cbn [APInt.BitWidth]. lia.
    + cbn [APInt.BitWidth]. lia.
    + intros v Hin. apply Hvals. right. assumption.
    + exists r. split; [assumption|]. rewrite Hwr. cbn [APInt.BitWidth]. lia.
Qed.

(** X15: the accumulator of [denseCstTensorNorm2Sq] gains one bit per
    element: for a non-empty constant of [n] elements of [w] bits the bound
    is returned in [2 * w + n] bits. *)
Theorem denseCstTensorNorm2Sq_width (cstOp : Operation) (aty : MlirType)
    (vals : list APInt.t) (shape : list Z) (w : Z) :
  getAttr (getAttrs cstOp) "value" = Some (DenseIntElementsAttr aty vals) ->
  resultType cstOp = RankedTensorType shape (IntegerType w Signless) ->
  vals <> [] ->
  (forall val, val ∈ vals -> APInt.valid val /\ APInt.BitWidth val = w) ->
  2 * w + Z.of_nat (length vals) < UINT_MAX - 1 ->
  exists r, denseCstTensorNorm2Sq cstOp = Ok r
    /\ APInt.BitWidth r = 2 * w + Z.of_nat (length vals).
Proof.
  intros Hattr Hty Hne Hvals Hbudget.
  unfold denseCstTensorNorm2Sq, getAttrOfType_DenseIntElementsAttr.
  rewrite Hattr, Hty.
  rewrite assert_true
    by (apply andb_true_intro; split; [apply bool_decide_eq_true; eauto | reflexivity]).
  cbn [mbind result_bind getElementType isSignlessInteger assert getValue].
  change (APInt.make 1 0) with (Ok (APInt.mk 1 0)). cbn [mbind result_bind].
  destruct vals as [|val rest]; [contradiction|].
  destruct (Hvals val) as [Hval Hwv]; [left|].
  assert (Hval' := Hval). destruct Hval' as [Hw0 Hv]. rewrite Hwv in *.
  cbn [length] in Hbudget. rewrite Nat2Z.inj_succ in Hbudget.
  cbn [denseCstTensorNorm2Sq_loop].
  rewrite APIntWidthExtendUSq_exact
    by (try assumption; rewrite Hwv; change (UINT_MAX / 2) with 2147483647;
        unfold UINT_MAX in *; lia).
  cbn [mbind result_bind]. rewrite Hwv.
  assert (Hsq : APInt.valid (APInt.mk (2 * w) (APInt.VAL val * APInt.VAL val)))
    by (apply valid_square; unfold UINT_MAX in *; lia).
  rewrite APIntWidthExtendUAdd_exact;
    [| by vm_compute | assumption | cbn [APInt.BitWidth]; lia].
  cbn [mbind result_bind APInt.BitWidth APInt.VAL].
  replace (Z.max 1 (2 * w)) with (2 * w) by lia.
  destruct (denseCstTensorNorm2Sq_loop_width w rest
              (APInt.mk (2 * w + 1) (0 + APInt.VAL val * APInt.VAL val)))
    as (r & Hr & Hwr).
  - destruct Hsq as [_ Hvs]. cbn [APInt.BitWidth APInt.VAL] in Hvs.
    split; cbn [APInt.BitWidth APInt.VAL]; [unfold UINT_MAX in *; lia|].
    rewrite Z.pow_add_r by lia. change (2 ^ 1) with 2. lia.
  - cbn [APInt.BitWidth]. lia.
  - cbn [APInt.BitWidth]. lia.
  - intros v Hin. apply Hvals. right. assumption.
  - exists r. split; [assumption|]. rewrite Hwr.
    cbn [APInt.BitWidth length]. rewrite Nat2Z.inj_succ. lia.
Qed.

(** ** Seeds *)

Lemma EncryptedValueType_test (ty : MlirType) :
  isa_EncryptedIntegerType ty
  || (isa_TensorType ty
      && match getElementType ty with
         | Ok e => isa_EncryptedIntegerType e
         | Abort _ => false
         end) = true
  <-> EncryptedValueType ty.
Proof.
  split.
  - destruct ty as [w s | w | shape e | e | ]; cbn; try discriminate;
      try (intros _; constructor);
      destruct e; cbn; try discriminate; intros _; constructor.
  - intros Henc. destruct Henc; reflexivity.
Qed.

(** X16: [getPessimisticValueState] never aborts, and it seeds a norm, always
    the 1-bit one, exactly for the block arguments of encrypted type; the
    result of an operation is never seeded. *)
Theorem getPessimisticValueState_seeds (value : Value) :
  exists lv, getPessimisticValueState value = Ok lv
    /\ (forall n, getMANP lv = Some n ->
          n = APInt.mk 1 1
          /\ exists ty argNumber,
               value = BlockArgument ty argNumber /\ EncryptedValueType ty)
    /\ ((exists ty argNumber,
           value = BlockArgument ty argNumber /\ EncryptedValueType ty) ->
        getMANP lv = Some (APInt.mk 1 1)).
Proof.
  destruct value as [ty argNumber | owner].
  - unfold getPessimisticValueState. cbn [isa_BlockArgument getType andb].
    pose proof (EncryptedValueType_test ty) as Htest.
    destruct (isa_EncryptedIntegerType ty || _) eqn:Hb.
    + eexists. split; [reflexivity|]. cbn [getMANP]. split.
      * intros n Hn. injection Hn as <-. split; [reflexivity|].
        exists ty, argNumber. split; [reflexivity | apply Htest; reflexivity].
      * intros _. reflexivity.
    + eexists. split; [reflexivity|]. cbn [getMANP]. split.
      * intros n Hn. discriminate Hn.
      * intros (ty' & k & Heq & Henc). injection Heq as <- _.
        apply Htest in Henc. discriminate Henc.
  - eexists. split; [reflexivity|]. cbn [getMANP]. split.
    + intros n Hn. discriminate Hn.
    + intros (ty & k & Heq & _). discriminate Heq.
Qed.

(** ** The visit of an operation *)

Ltac visit_cases H :=
  unfold visitOperation, LatticeElement_join, MANPLatticeValue_join in H;
  destruct (opName _) eqn:?;
  cbn [isa_HLFHEDialect getDialect fmap result_fmap assert mbind result_bind
       mret result_ret] in H;
  repeat match type of H with
         | context [match ?x with _ => _ end] =>
             lazymatch x with
             | context [match _ with _ => _ end] => fail
             | _ => destruct x eqn:?
             end;
             cbn [fmap result_fmap assert mbind result_bind mret result_ret] in H
         end;
  try discriminate;
  injection H as <- <-;
  cbn [setAttrs latticeElements diagnostics setAttr emit].

Lemma visitOperation_effects (debug : bool) (op : Operation)
    (operands : list MANPLatticeValue) (st st' : AnalysisState)
    (res : result ChangeResult) :
  visitOperation debug op operands st = (st', res) ->
  (forall key, key <> (opId op, "MANP") -> setAttrs st' !! key = setAttrs st !! key)
  /\ (forall j, j <> opId op -> latticeElements st' !! j = latticeElements st !! j)
  /\ (exists more, diagnostics st' = diagnostics st ++ more
                   /\ Forall (fun d => diagOp d = op) more)
  /\ (forall msg, res = Abort msg -> setAttrs st' = setAttrs st)
  /\ (forall c, res = Ok c -> c = Change).
Proof.
  intros H. visit_cases H.
  all: split; [intros key Hkey; try reflexivity; apply lookup_insert_ne; congruence|].
  all: split; [intros j Hj; try reflexivity; apply lookup_insert_ne; congruence|].
  all: split;
    [first [ exists []; split; [symmetry; apply app_nil_r | constructor]
           | eexists [_]; split; [reflexivity | repeat constructor] ]|].
  all: split; [intros ? Hmsg; first [discriminate Hmsg | reflexivity]|].
  all: intros ? Hc; first [discriminate Hc | injection Hc as <-; reflexivity].
Qed.

(** X17: a visit touches nothing but its own operation: the lattice elements
    and the attributes of every other operation stay as they were, the only
    attribute it may set is [MANP], and it only appends diagnostics, all of
    them on the visited operation. *)
Theorem visitOperation_frame (debug : bool) (op : Operation)
    (operands : list MANPLatticeValue) (st : AnalysisState) :
  let st' := fst (visitOperation debug op operands st) in
  (forall key, key <> (opId op, "MANP") -> setAttrs st' !! key = setAttrs st !! key)
  /\ (forall j, j <> opId op -> latticeElements st' !! j = latticeElements st !! j)
  /\ (exists more, diagnostics st' = diagnostics st ++ more
                   /\ Forall (fun d => diagOp d = op) more).
Proof.
  destruct (visitOperation debug op operands st) as [st' res] eqn:H.
  destruct (visitOperation_effects _ _ _ _ _ _ H) as (Ha & Hl & Hd & _).
  cbn [fst]. auto.
Qed.

(** X18: a visit that aborts has set no attribute, whichever step aborted;
    a visit that returns always reports a change. *)
Theorem visitOperation_abort_sets_no_attribute (debug : bool) (op : Operation)
    (operands : list MANPLatticeValue) (st st' : AnalysisState)
    (res : result ChangeResult) :
  visitOperation debug op operands st = (st', res) ->
  (forall msg, res = Abort msg -> setAttrs st' = setAttrs st)
  /\ (forall c, res = Ok c -> c = Change).
Proof.
  intros H. destruct (visitOperation_effects _ _ _ _ _ _ H) as (_ & _ & _ & Ha & Hc).
  auto.
Qed.

(** X19: a norm bound is written once: when the lattice element of the
    result is already initialized, the visit aborts, whatever the operation
    is, and leaves every lattice element and every attribute as it was. *)
Theorem visitOperation_write_once (debug : bool) (op : Operation)
    (operands : list MANPLatticeValue) (st : AnalysisState)
    (cur : MANPLatticeValue) :
  latticeElements st !! opId op = Some cur ->
  exists st' msg,
    visitOperation debug op operands st = (st', Abort msg)
    /\ latticeElements st' = latticeElements st
    /\ setAttrs st' = setAttrs st.
Proof.
  intros Hinit.
  destruct (visitOperation debug op operands st) as [st' res] eqn:H.
  visit_cases H; try congruence.
  all: do 2 eexists; split; [reflexivity|]; split; reflexivity.
Qed.

(** X20: a constant, and an operation of a dialect other than HLFHE, is
    inert: whatever the operands and the state, its visit sets no attribute
    and emits no diagnostic; on a fresh lattice element it records the empty
    lattice value for the result and returns. *)
Theorem visitOperation_inert (debug : bool) (op : Operation)
    (operands : list MANPLatticeValue) (st : AnalysisState) :
  opName op = Std_ConstantOp \/ (exists name, opName op = Other_op name) ->
  setAttrs (fst (visitOperation debug op operands st)) = setAttrs st
  /\ diagnostics (fst (visitOperation debug op operands st)) = diagnostics st
  /\ (latticeElements st !! opId op = None ->
      visitOperation debug op operands st =
        (mkAnalysisState
           (<[opId op := mkMANPLatticeValue None]> (latticeElements st))
           (setAttrs st) (diagnostics st),
         Ok Change)).
Proof.
  intros Hname.
  assert (Hvisit : visitOperation debug op operands st =
            match LatticeElement_join op (mkMANPLatticeValue None) st with
            | Abort msg => (st, Abort msg)
            | Ok st1 => (st1, Ok Change)
            end).
  { unfold visitOperation.
    destruct Hname as [-> | [name ->]]; reflexivity. }
  rewrite Hvisit. unfold LatticeElement_join, MANPLatticeValue_join.
  destruct (latticeElements st !! opId op) as [cur|] eqn:Hlookup.
  - cbn. repeat split. intros Hfresh. discriminate Hfresh.
  - cbn. repeat split.
Qed.

(** X21: [zero] and [apply_lookup_table] reset the noise: on a fresh lattice
    element the visit records the squared norm 1 and sets [MANP] to 1,
    whatever norms the operands hold. *)
Theorem visitOperation_reset (debug : bool) (op : Operation)
    (operands : list MANPLatticeValue) (st : AnalysisState) :
  opName op = HLFHE_ZeroEintOp \/ opName op = HLFHE_ApplyLookupTableEintOp ->
  latticeElements st !! opId op = None ->
  exists st',
    visitOperation debug op operands st = (st', Ok Change)
    /\ latticeElements st' !! opId op =
         Some (mkMANPLatticeValue (Some (APInt.mk 1 1)))
    /\ setAttrs st' !! (opId op, "MANP") =
         Some (IntegerAttr (IntegerType 1 Unsigned) (APInt.mk 1 1)).
Proof.
  intros Hname Hfresh.
  assert (Hvisit : visitOperation debug op operands st =
    (let st1 := mkAnalysisState
                  (<[opId op := mkMANPLatticeValue (Some (APInt.mk 1 1))]>
                     (latticeElements st))
                  (setAttrs st) (diagnostics st) in
     let st2 := setAttr op "MANP"
                  (IntegerAttr (IntegerType 1 Unsigned) (APInt.mk 1 1)) st1 in
     (if debug
      then emit DiagRemark op
             ("Squared Minimal Arithmetic Noise Padding: "
              +:+ APIntToStringValUnsigned (APInt.mk 1 1) +:+ "
") st2
      else st2, Ok Change))).
  { unfold visitOperation, LatticeElement_join.
    destruct Hname as [-> | ->];
      change (Some <$> APInt.make 1 1) with (Ok (Some (APInt.mk 1 1)) : result _);
      cbn iota; rewrite Hfresh; cbn [mret result_ret];
      rewrite APIntCeilSqrt_one; destruct debug; reflexivity. }
  rewrite Hvisit. eexists. split; [reflexivity|].
  destruct debug; cbn [latticeElements setAttrs setAttr emit];
    rewrite !lookup_insert_eq; split; reflexivity.
Qed.

(** X22: when the rule of a tracked operation returns the squared norm [n]
    and the lattice element of the result is fresh, the visit records [n],
    sets [MANP] to the least root of [n] typed as an unsigned integer of the
    root's width, and emits one remark with [n] in decimal exactly when the
    debug flag is set. *)
Theorem visitOperation_records_rule_result (debug : bool) (op : Operation)
    (operands : list MANPLatticeValue) (st : AnalysisState) (n : APInt.t) :
  (opName op = HLFHE_Dot /\ getSqMANP_Dot op operands = Ok n)
  \/ (opName op = HLFHE_AddEintIntOp /\ getSqMANP_AddEintIntOp op operands = Ok n)
  \/ (opName op = HLFHE_AddEintOp /\ getSqMANP_AddEintOp op operands = Ok n)
  \/ (opName op = HLFHE_SubIntEintOp /\ getSqMANP_SubIntEintOp op operands = Ok n)
  \/ (opName op = HLFHE_MulEintIntOp /\ getSqMANP_MulEintIntOp op operands = Ok n) ->
  latticeElements st !! opId op = None ->
  APInt.valid n -> APInt.BitWidth n < UINT_MAX / 2 ->
  exists m st',
    visitOperation debug op operands st = (st', Ok Change)
    /\ APIntCeilSqrt n = Ok m
    /\ (forall k, 0 <= k -> APInt.VAL n <= k * k -> APInt.VAL m <= k)
    /\ APInt.VAL n <= APInt.VAL m * APInt.VAL m
    /\ latticeElements st' = <[opId op := mkMANPLatticeValue (Some n)]> (latticeElements st)
    /\ setAttrs st' =
         <[(opId op, "MANP") :=
             IntegerAttr (IntegerType (APInt.BitWidth m) Unsigned) m]> (setAttrs st)
    /\ diagnostics st' =
         diagnostics st ++
           (if debug
            then [mkDiagnostic DiagRemark op
                    ("Squared Minimal Arithmetic Noise Padding: "
                     +:+ pretty (APInt.VAL n) +:+ "
")]
            else []).
Proof.
  intros Hrule Hfresh Hn Hw.
  destruct (APIntCeilSqrt_least n Hn Hw) as (m & Hm & _ & Hge & Hleast).
  exists m. eexists. split.
  - unfold visitOperation, LatticeElement_join.
    destruct Hrule as [[-> ->] | [[-> ->] | [[-> ->] | [[-> ->] | [-> ->]]]]];
      cbn [fmap result_fmap]; rewrite Hfresh; cbn [mret result_ret]; rewrite Hm;
      reflexivity.
  - split; [assumption|]. split; [assumption|]. split; [assumption|].
    destruct debug; cbn [latticeElements setAttrs diagnostics setAttr emit];
      repeat split; try reflexivity.
    symmetry. apply app_nil_r.
Qed.

(** X23: the debug flag changes nothing but the trace: with and without it a
    visit has the same outcome, the same lattice elements and the same
    attributes; the diagnostics differ by remarks on the visited operation
    that the debug run appends. *)
Theorem visitOperation_debug_only_remarks (op : Operation)
    (operands : list MANPLatticeValue) (st : AnalysisState) :
  let traced := visitOperation true op operands st in
  let silent := visitOperation false op operands st in
  snd traced = snd silent
  /\ latticeElements (fst traced) = latticeElements (fst silent)
  /\ setAttrs (fst traced) = setAttrs (fst silent)
  /\ exists remarks,
       diagnostics (fst traced) = diagnostics (fst silent) ++ remarks
       /\ Forall (fun d => diagSeverity d = DiagRemark /\ diagOp d = op) remarks.
Proof.
  cbv zeta. unfold visitOperation, LatticeElement_join, MANPLatticeValue_join.
  destruct (opName op);
    cbn [isa_HLFHEDialect getDialect fmap result_fmap assert mbind result_bind
         mret result_ret];
    repeat match goal with
           | |- context [match ?x with _ => _ end] =>
               lazymatch x with
               | context [match _ with _ => _ end] => fail
               | _ => destruct x eqn:?
               end;
               cbn [fmap result_fmap assert mbind result_bind mret result_ret]
           end;
    cbn [fst snd setAttrs latticeElements diagnostics setAttr emit];
    (split; [reflexivity|]; split; [reflexivity|]; split; [reflexivity|]);
    first [ exists []; split; [symmetry; apply app_nil_r | constructor]
          | eexists [_]; split; [reflexivity | repeat constructor] ].
Qed.

(** ** How the reported MANP composes *)

(** X24: the MANP of a sum of two norm bounds is at least the MANP of each
    and at most the sum of the two. *)
Theorem MANP_of_sum (p q : APInt.t) :
  APInt.valid p -> APInt.valid q ->
  Z.max (APInt.BitWidth p) (APInt.BitWidth q) + 1 < UINT_MAX / 2 ->
  exists s a b c,
    APIntWidthExtendUAdd p q = Ok s
    /\ APIntCeilSqrt p = Ok a /\ APIntCeilSqrt q = Ok b /\ APIntCeilSqrt s = Ok c
    /\ APInt.VAL a <= APInt.VAL c /\ APInt.VAL b <= APInt.VAL c
    /\ APInt.VAL c <= APInt.VAL a + APInt.VAL b.
Proof.
  intros Hp Hq Hw. change (UINT_MAX / 2) with 2147483647 in Hw.
  assert (Hp' := Hp). destruct Hp' as [Hwp Hvp].
  assert (Hq' := Hq). destruct Hq' as [Hwq Hvq].
  destruct (APIntCeilSqrt_least p Hp) as (a & Ha & [_ Ha0] & Hage & Haleast);
    [change (UINT_MAX / 2) with 2147483647; lia|].
  destruct (APIntCeilSqrt_least q Hq) as (b & Hb & [_ Hb0] & Hbge & Hbleast);
    [change (UINT_MAX / 2) with 2147483647; lia|].
  pose proof (APIntWidthExtendUAdd_exact p q Hp Hq ltac:(unfold UINT_MAX; lia)) as Hs.
  destruct (APIntCeilSqrt_least
              (APInt.mk (Z.max (APInt.BitWidth p) (APInt.BitWidth q) + 1)
                        (APInt.VAL p + APInt.VAL q)))
    as (c & Hc & [_ Hc0] & Hcge & Hcleast).
  { split; cbn [APInt.BitWidth APInt.VAL]; [unfold UINT_MAX; lia|].
    assert (2 ^ APInt.BitWidth p
            <= 2 ^ Z.max (APInt.BitWidth p) (APInt.BitWidth q))
      by (apply Z.pow_le_mono_r; lia).
    assert (2 ^ APInt.BitWidth q
            <= 2 ^ Z.max (APInt.BitWidth p) (APInt.BitWidth q))
      by (apply Z.pow_le_mono_r; lia).
    rewrite Z.pow_add_r by lia. change (2 ^ 1) with 2. lia. }
  { cbn [APInt.BitWidth]. change (UINT_MAX / 2) with 2147483647. lia. }
  cbn [APInt.VAL] in Hcge, Hcleast.
  exists (APInt.mk (Z.max (APInt.BitWidth p) (APInt.BitWidth q) + 1)
                   (APInt.VAL p + APInt.VAL q)), a, b, c.
  repeat split; try assumption.
  - apply Haleast; lia.
  - apply Hbleast; lia.
  - apply Hcleast; nia.
Qed.

(** X25: the MANP of a norm bound scaled by the square of a constant [k] is
    at most [k] times the MANP of the bound, and for [k > 0] at least the
    MANP of the bound. *)
Theorem MANP_of_scaled (k p : APInt.t) :
  APInt.valid k -> APInt.valid p ->
  2 * APInt.BitWidth k + APInt.BitWidth p < UINT_MAX / 2 ->
  exists ksq s a c,
    APIntWidthExtendUSq k = Ok ksq
    /\ APIntWidthExtendUMul ksq p = Ok s
    /\ APIntCeilSqrt p = Ok a /\ APIntCeilSqrt s = Ok c
    /\ APInt.VAL c <= APInt.VAL k * APInt.VAL a
    /\ (0 < APInt.VAL k -> APInt.VAL a <= APInt.VAL c).
Proof.
  intros Hk Hp Hw. change (UINT_MAX / 2) with 2147483647 in Hw.
  assert (Hk' := Hk). destruct Hk' as [Hwk Hvk].
  assert (Hp' := Hp). destruct Hp' as [Hwp Hvp].
  pose proof (valid_square (APInt.BitWidth k) (APInt.VAL k)
                ltac:(lia) ltac:(unfold UINT_MAX; lia) Hvk) as Hksq.
  pose proof (APIntWidthExtendUSq_exact k Hk
                ltac:(change (UINT_MAX / 2) with 2147483647; lia)) as Hsq.
  pose proof (APIntWidthExtendUMul_exact _ p Hksq Hp
                ltac:(cbn [APInt.BitWidth]; unfold UINT_MAX; lia)) as Hmul.
  cbn [APInt.BitWidth APInt.VAL] in Hmul.
  destruct (APIntCeilSqrt_least p Hp) as (a & Ha & [_ Ha0] & Hage & Haleast);
    [change (UINT_MAX / 2) with 2147483647; lia|].
  destruct (APIntCeilSqrt_least
              (APInt.mk (2 * APInt.BitWidth k + APInt.BitWidth p)
                        (APInt.VAL k * APInt.VAL k * APInt.VAL p)))
    as (c & Hc & [_ Hc0] & Hcge & Hcleast).
  { destruct Hksq as [_ Hvs]. cbn [APInt.BitWidth APInt.VAL] in Hvs.
    split; cbn [APInt.BitWidth APInt.VAL]; [unfold UINT_MAX; lia|].
    rewrite Z.pow_add_r by lia. nia. }
  { cbn [APInt.BitWidth]. change (UINT_MAX / 2) with 2147483647. lia. }
  cbn [APInt.VAL] in Hcge, Hcleast.
  do 4 eexists. split; [exact Hsq|]. split; [exact Hmul|].
  split; [exact Ha|]. split; [exact Hc|]. split.
  - apply Hcleast; nia.
  - intros Hk0. apply Haleast; [lia|].
    assert (1 <= APInt.VAL k * APInt.VAL k) by nia.
    assert (APInt.VAL p <= APInt.VAL k * APInt.VAL k * APInt.VAL p) by nia.
    lia.
Qed.

End MANP.

(** * The two square roots are sound *)

Lemma isqrt_floor_sound : isqrt_sound isqrt_floor.
Proof. intros v Hv. left. reflexivity. Qed.

Lemma isqrt_nearest_sound : isqrt_sound isqrt_nearest.
Proof.
  intros v Hv. unfold isqrt_nearest.
  pose proof (Z.sqrt_nonneg v) as Hs.
  destruct (v - Z.sqrt v * Z.sqrt v <=? Z.sqrt v) eqn:Hle.
  - left. reflexivity.
  - right. apply Z.leb_gt in Hle. split; [reflexivity | lia].
Qed.

(** * Instances on concrete programs *)

Ltac by_computation := vm_compute; repeat split; (reflexivity || discriminate).

Lemma add_multiply_exact_commutative_witness :
  APIntWidthExtendUAdd (APInt.mk 3 5) (APInt.mk 8 200) = Ok (APInt.mk 9 205)
  /\ APIntWidthExtendUMul (APInt.mk 3 5) (APInt.mk 8 200) = Ok (APInt.mk 11 1000).
Proof.
  destruct (add_multiply_exact_commutative (APInt.mk 3 5) (APInt.mk 8 200))
    as (_ & _ & Hadd & Hmul); [by_computation | by_computation |].
  split; [apply Hadd | apply Hmul]; by_computation.
Defined.

Lemma APIntCeilSqrt_smallest_root_witness :
  exists r, APIntCeilSqrt isqrt_nearest (APInt.mk 9 14) = Ok r
    /\ 0 <= APInt.VAL r
    /\ APInt.VAL r * APInt.VAL r >= 14
    /\ (14 > 0 -> (APInt.VAL r - 1) * (APInt.VAL r - 1) < 14)
    /\ (14 = 0 -> APInt.VAL r = 0)
    /\ (forall k, 0 <= k -> k * k >= 14 -> APInt.VAL r <= k).
Proof.
  apply (APIntCeilSqrt_smallest_root isqrt_nearest isqrt_nearest_sound (APInt.mk 9 14));
    by_computation.
Defined.

Lemma dynamic_int_operand_contribution_witness :
  getSqMANP_AddEintIntOp add_dyn_i3
    [mkMANPLatticeValue (Some (APInt.mk 1 1)); mkMANPLatticeValue None] =
    Ok (APInt.mk 9 65)
  /\ maxValue 3 * maxValue 3 + 1 = 50.
Proof.
  destruct (dynamic_int_operand_contribution add_dyn_i3 dyn_i3 3 (APInt.mk 1 1)
              (mkMANPLatticeValue None))
    as (_ & _ & Hadd & _);
    [by_computation | by_computation | reflexivity | reflexivity | by_computation |].
  split; [exact (Hadd eq_refl) | reflexivity].
Defined.

Lemma getSqMANP_Dot_constant_witness :
  exists r, getSqMANP_Dot dot_cst_1_2_3 [] = Ok r
    /\ APInt.valid r
    /\ APInt.VAL r = 1 * 1 + (2 * 2 + (3 * 3 + 0)).
Proof.
  refine (proj1 (getSqMANP_Dot_constant isqrt_nearest isqrt_nearest_sound
                   dot_cst_1_2_3 cst_1_2_3 []
                   (RankedTensorType [3] (EncryptedIntegerType 2))
                   (RankedTensorType [3] (IntegerType 3 Signless)) 0
                   [APInt.mk 3 1; APInt.mk 3 2; APInt.mk 3 3] [3] 3
                   eq_refl eq_refl eq_refl eq_refl eq_refl _)).
  intros val Hin. apply list_elem_of_In in Hin. cbn in Hin.
  destruct Hin as [<- | [<- | [<- | []]]]; by_computation.
Defined.

Lemma getSqMANP_Dot_dynamic_witness :
  getSqMANP_Dot dot_dyn_4_i8 [] = Ok (APInt.mk 19 260100).
Proof.
  refine (proj1 (getSqMANP_Dot_dynamic dot_dyn_4_i8 []
                   (RankedTensorType [4] (EncryptedIntegerType 7)) 0
                   (BlockArgument (RankedTensorType [4] (IntegerType 8 Signless)) 1)
                   4 8 eq_refl eq_refl eq_refl eq_refl _ _ _));
    by_computation.
Defined.

Lemma getSqMANP_AddEintOp_sum_witness :
  getSqMANP_AddEintOp add_eint_args
    [mkMANPLatticeValue (Some (APInt.mk 1 1)); mkMANPLatticeValue (Some (APInt.mk 9 14))] =
    Ok (APInt.mk 10 15).
Proof.
  apply (getSqMANP_AddEintOp_sum add_eint_args (APInt.mk 1 1) (APInt.mk 9 14));
    by_computation.
Defined.

Lemma getSqMANP_MulEintIntOp_constant_witness :
  getSqMANP_MulEintIntOp mul_cst_5
    [mkMANPLatticeValue (Some (APInt.mk 9 14)); mkMANPLatticeValue None] =
    Ok (APInt.mk 17 350).
Proof.
  apply (getSqMANP_MulEintIntOp_constant mul_cst_5 cst_5 _ (APInt.mk 4 5) (APInt.mk 9 14)
           4 (IntegerType 4 Signless) (mkMANPLatticeValue None));
    by_computation.
Defined.

Lemma visitOperation_unsupported_witness :
  exists st',
    visitOperation isqrt_floor false unsupported_op
      [mkMANPLatticeValue (Some (APInt.mk 1 1))] emptyState =
      (st', Abort "Unsupported operation")
    /\ diagnostics st' = [mkDiagnostic DiagError unsupported_op "Unsupported operation"]
    /\ setAttrs st' = ∅
    /\ latticeElements st' = ∅.
Proof.
  destruct (visitOperation_unsupported isqrt_floor false unsupported_op
              [mkMANPLatticeValue (Some (APInt.mk 1 1))] emptyState eq_refl eq_refl)
    as (st' & Hvisit & Hdiag & Hattrs & Hlattice & _).
  exists st'. repeat split; assumption.
Defined.

Lemma getPessimisticValueState_block_argument_witness :
  getPessimisticValueState (BlockArgument (EncryptedIntegerType 2) 0) =
    Ok (mkMANPLatticeValue (Some (APInt.mk 1 1)))
  /\ APIntCeilSqrt isqrt_nearest (APInt.mk 1 1) = Ok (APInt.mk 1 1).
Proof.
  apply (getPessimisticValueState_block_argument isqrt_nearest isqrt_nearest_sound
           (EncryptedIntegerType 2) 0).
  constructor.
Defined.

Lemma getSqMANP_Dot_only_block_argument_witness :
  getSqMANP_Dot dot_of_result [] =
    Abort "Only dot operations with tensors that are function arguments are currently supported".
Proof.
  apply (proj1 (getSqMANP_Dot_only_block_argument isqrt_floor false dot_of_result []
                  emptyState) tensor_of_args eq_refl).
Defined.

(** * Instances of the further properties *)

Lemma APIntWidthExtendUSq_is_self_product_witness :
  APIntWidthExtendUSq (APInt.mk 4 5) = APIntWidthExtendUMul (APInt.mk 4 5) (APInt.mk 4 5)
  /\ APIntWidthExtendUSq (APInt.mk 4 5) = Ok (APInt.mk 8 25)
  /\ APInt.valid (APInt.mk 8 25).
Proof.
  destruct (APIntWidthExtendUSq_is_self_product (APInt.mk 4 5)) as [Hsq _];
    [by_computation|].
  apply Hsq. by_computation.
Defined.

Lemma width_extension_never_truncates_witness :
  exists r, APIntWidthExtendUAdd (APInt.mk 3 5) (APInt.mk 8 200) = Ok r.
Proof.
  destruct (width_extension_never_truncates (APInt.mk 3 5) (APInt.mk 8 200))
    as (_ & _ & Hadd & _); [by_computation | by_computation |].
  apply Hadd. by_computation.
Defined.

Lemma APIntCeilSqrt_of_square_witness :
  exists sq r,
    APIntWidthExtendUSq (APInt.mk 4 5) = Ok sq
    /\ APIntCeilSqrt isqrt_floor sq = Ok r
    /\ APInt.VAL r = 5.
Proof.
  apply (APIntCeilSqrt_of_square isqrt_floor isqrt_floor_sound (APInt.mk 4 5));
    by_computation.
Defined.

Lemma APIntCeilSqrt_monotone_witness :
  exists ra rb,
    APIntCeilSqrt isqrt_nearest (APInt.mk 9 14) = Ok ra
    /\ APIntCeilSqrt isqrt_nearest (APInt.mk 5 26) = Ok rb
    /\ APInt.VAL ra <= APInt.VAL rb.
Proof.
  apply (APIntCeilSqrt_monotone isqrt_nearest isqrt_nearest_sound
           (APInt.mk 9 14) (APInt.mk 5 26));
    by_computation.
Defined.

Lemma APIntCeilSqrt_returns_valid_witness :
  exists r, APIntCeilSqrt isqrt_floor (APInt.mk 5 26) = Ok r
    /\ APInt.valid r
    /\ (APInt.BitWidth r = 5 \/ APInt.BitWidth r = 5 + 1)
    /\ APInt.VAL r <= 26.
Proof.
  apply (APIntCeilSqrt_returns_valid isqrt_floor isqrt_floor_sound (APInt.mk 5 26));
    by_computation.
Defined.

Lemma ceilLog2_least_exponent_witness :
  0 <= ceilLog2 5 <= 64
  /\ 5 <= 2 ^ ceilLog2 5
  /\ (forall r, 0 <= r -> 5 <= 2 ^ r -> ceilLog2 5 <= r)
  /\ (forall k, 0 <= k -> 5 = 2 ^ k -> ceilLog2 5 = k).
Proof.
  apply (ceilLog2_least_exponent 5). by_computation.
Defined.

Lemma conservativeIntNorm2Sq_dominates_constant_witness :
  exists c d,
    APIntWidthExtendUSq (APInt.mk 3 7) = Ok c
    /\ conservativeIntNorm2Sq (IntegerType 3 Signless) = Ok d
    /\ APInt.VAL c < APInt.VAL d.
Proof.
  apply (conservativeIntNorm2Sq_dominates_constant (APInt.mk 3 7) 3);
    by_computation.
Defined.

Lemma denseDynTensorNorm2Sq_dominates_constant_witness :
  exists c d,
    denseCstTensorNorm2Sq cst_4_i8 = Ok c
    /\ denseDynTensorNorm2Sq (Some (resultType cst_4_i8)) = Ok d
    /\ APInt.VAL c <= APInt.VAL d.
Proof.
  refine (denseDynTensorNorm2Sq_dominates_constant cst_4_i8
            (RankedTensorType [4] (IntegerType 8 Signless))
            [APInt.mk 8 1; APInt.mk 8 2; APInt.mk 8 3; APInt.mk 8 255] 4 8
            eq_refl eq_refl eq_refl _ _ _ _);
    [| by_computation | by_computation | by_computation].
  intros val Hin. apply list_elem_of_In in Hin. cbn in Hin.
  destruct Hin as [<- | [<- | [<- | [<- | []]]]]; by_computation.
Defined.

Lemma additive_rules_constant_witness :
  getSqMANP_AddEintIntOp add_cst_5
    [mkMANPLatticeValue (Some (APInt.mk 1 1)); mkMANPLatticeValue None] =
    Ok (APInt.mk 9 26)
  /\ getSqMANP_SubIntEintOp sub_cst_5
    [mkMANPLatticeValue None; mkMANPLatticeValue (Some (APInt.mk 1 1))] =
    Ok (APInt.mk 9 26).
Proof.
  apply (additive_rules_constant add_cst_5 sub_cst_5 cst_5 (APInt.mk 4 5) (APInt.mk 1 1)
           4 (IntegerType 4 Signless) (mkMANPLatticeValue None));
    by_computation.
Defined.

Lemma visitOperation_write_once_witness :
  exists st' msg,
    visitOperation isqrt_floor false dot_cst_1_2_3 [] visitedState = (st', Abort msg)
    /\ latticeElements st' = latticeElements visitedState
    /\ setAttrs st' = setAttrs visitedState.
Proof.
  apply (visitOperation_write_once isqrt_floor false dot_cst_1_2_3 [] visitedState
           (mkMANPLatticeValue (Some (APInt.mk 9 14)))).
  reflexivity.
Defined.

Lemma visitOperation_inert_witness :
  setAttrs (fst (visitOperation isqrt_floor true cst_5 [] emptyState)) = setAttrs emptyState
  /\ diagnostics (fst (visitOperation isqrt_floor true cst_5 [] emptyState)) =
       diagnostics emptyState
  /\ (latticeElements emptyState !! opId cst_5 = None ->
      visitOperation isqrt_floor true cst_5 [] emptyState =
        (mkAnalysisState
           (<[opId cst_5 := mkMANPLatticeValue None]> (latticeElements emptyState))
           (setAttrs emptyState) (diagnostics emptyState),
         Ok Change)).
Proof.
  apply (visitOperation_inert isqrt_floor true cst_5 [] emptyState).
  left. reflexivity.
Defined.

Lemma visitOperation_reset_witness :
  exists st',
    visitOperation isqrt_nearest false zero_op [] emptyState = (st', Ok Change)
    /\ latticeElements st' !! opId zero_op =
         Some (mkMANPLatticeValue (Some (APInt.mk 1 1)))
    /\ setAttrs st' !! (opId zero_op, "MANP") =
         Some (IntegerAttr (IntegerType 1 Unsigned) (APInt.mk 1 1)).
Proof.
  apply (visitOperation_reset isqrt_nearest isqrt_nearest_sound false zero_op []
           emptyState).
  - left. reflexivity.
  - reflexivity.
Defined.

Lemma visitOperation_abort_sets_no_attribute_witness :
  setAttrs (fst (visitOperation isqrt_floor false unsupported_op [] emptyState)) =
    setAttrs emptyState.
Proof.
  refine (proj1 (visitOperation_abort_sets_no_attribute isqrt_floor false
                   unsupported_op [] emptyState
                   (fst (visitOperation isqrt_floor false unsupported_op [] emptyState))
                   (snd (visitOperation isqrt_floor false unsupported_op [] emptyState))
                   _)
            "Unsupported operation" _).
  - apply surjective_pairing.
  - reflexivity.
Defined.

Lemma denseCstTensorNorm2Sq_requirements_witness :
  exists aty vals e,
    getAttr (getAttrs cst_1_2_3) "value" = Some (DenseIntElementsAttr aty vals)
    /\ getElementType (resultType cst_1_2_3) = Ok e
    /\ isSignlessInteger e = true
    /\ (vals = [] -> APInt.mk 9 14 = APInt.mk 1 0).
Proof.
  apply (denseCstTensorNorm2Sq_requirements cst_1_2_3 (APInt.mk 9 14)).
  reflexivity.
Defined.

Lemma denseDynTensorNorm2Sq_requirements_witness :
  exists n w,
    Some (RankedTensorType [4] (IntegerType 8 Signless)) =
      Some (RankedTensorType [n] (IntegerType w Signless))
    /\ n <> kDynamicSize
    /\ 0 < w < UINT_MAX / 2.
Proof.
  apply (denseDynTensorNorm2Sq_requirements
           (Some (RankedTensorType [4] (IntegerType 8 Signless)))
           (APInt.mk 19 260100)).
  reflexivity.
Defined.

Lemma denseCstTensorNorm2Sq_width_witness :
  exists r, denseCstTensorNorm2Sq cst_4_i8 = Ok r
    /\ APInt.BitWidth r = 2 * 8 + 4.
Proof.
  refine (denseCstTensorNorm2Sq_width cst_4_i8
            (RankedTensorType [4] (IntegerType 8 Signless))
            [APInt.mk 8 1; APInt.mk 8 2; APInt.mk 8 3; APInt.mk 8 255] [4] 8
            eq_refl eq_refl _ _ _);
    [discriminate | | by_computation].
  intros val Hin. apply list_elem_of_In in Hin. cbn in Hin.
  destruct Hin as [<- | [<- | [<- | [<- | []]]]]; by_computation.
Defined.

Lemma MANP_of_sum_witness :
  exists s a b c,
    APIntWidthExtendUAdd (APInt.mk 9 14) (APInt.mk 9 26) = Ok s
    /\ APIntCeilSqrt isqrt_nearest (APInt.mk 9 14) = Ok a
    /\ APIntCeilSqrt isqrt_nearest (APInt.mk 9 26) = Ok b
    /\ APIntCeilSqrt isqrt_nearest s = Ok c
    /\ APInt.VAL a <= APInt.VAL c /\ APInt.VAL b <= APInt.VAL c
    /\ APInt.VAL c <= APInt.VAL a + APInt.VAL b.
Proof.
  apply (MANP_of_sum isqrt_nearest isqrt_nearest_sound (APInt.mk 9 14) (APInt.mk 9 26));
    by_computation.
Defined.

Lemma MANP_of_scaled_witness :
  exists ksq s a c,
    APIntWidthExtendUSq (APInt.mk 4 5) = Ok ksq
    /\ APIntWidthExtendUMul ksq (APInt.mk 9 14) = Ok s
    /\ APIntCeilSqrt isqrt_nearest (APInt.mk 9 14) = Ok a
    /\ APIntCeilSqrt isqrt_nearest s = Ok c
    /\ APInt.VAL c <= 5 * APInt.VAL a
    /\ (0 < 5 -> APInt.VAL a <= APInt.VAL c).
Proof.
  apply (MANP_of_scaled isqrt_nearest isqrt_nearest_sound (APInt.mk 4 5) (APInt.mk 9 14));
    by_computation.
Defined.

Lemma visitOperation_records_rule_result_witness :
  exists m st',
    visitOperation isqrt_nearest true add_cst_5
      [mkMANPLatticeValue (Some (APInt.mk 1 1)); mkMANPLatticeValue None]
      emptyState = (st', Ok Change)
    /\ APIntCeilSqrt isqrt_nearest (APInt.mk 9 26) = Ok m
    /\ (forall k, 0 <= k -> 26 <= k * k -> APInt.VAL m <= k)
    /\ 26 <= APInt.VAL m * APInt.VAL m
    /\ latticeElements st' =
         <[opId add_cst_5 := mkMANPLatticeValue (Some (APInt.mk 9 26))]> ∅
    /\ setAttrs st' =
         <[(opId add_cst_5, "MANP") :=
             IntegerAttr (IntegerType (APInt.BitWidth m) Unsigned) m]> ∅
    /\ diagnostics st' =
         [mkDiagnostic DiagRemark add_cst_5
            "Squared Minimal Arithmetic Noise Padding: 26
"].
Proof.
  apply (visitOperation_records_rule_result isqrt_nearest isqrt_nearest_sound true
           add_cst_5
           [mkMANPLatticeValue (Some (APInt.mk 1 1)); mkMANPLatticeValue None]
           emptyState (APInt.mk 9 26)).
  - right. left. split; reflexivity.
  - reflexivity.
  - by_computation.
  - by_computation.
Defined.

Lemma APIntWidthExtendULT_compares_values_witness :
  exists lt, APIntWidthExtendULT (APInt.mk 3 5) (APInt.mk 8 200) = Ok lt
    /\ (lt = true <-> 5 < 200)
    /\ (APIntWidthExtendULT (APInt.mk 8 200) (APInt.mk 3 5) = Ok true -> lt = false)
    /\ APIntWidthExtendULT (APInt.mk 3 5) (APInt.mk 3 5) = Ok false.
Proof.
  exact (APIntWidthExtendULT_compares_values (APInt.mk 3 5) (APInt.mk 8 200)).
Defined.

Lemma getSqMANP_AddEintOp_needs_both_norms_witness :
  getSqMANP_AddEintOp add_eint_args
    [mkMANPLatticeValue (Some (APInt.mk 1 1)); mkMANPLatticeValue None] =
    Abort "Missing squared Minimal Arithmetic Noise Padding for encrypted operands".
Proof.
  apply (proj2 (getSqMANP_AddEintOp_needs_both_norms add_eint_args
                  [mkMANPLatticeValue (Some (APInt.mk 1 1)); mkMANPLatticeValue None])).
  right. right. reflexivity.
Defined.

Lemma scalar_rules_requirements_witness :
  exists v p other,
    getOperands add_cst_5 !! 1%nat = Some v
    /\ isSignlessInteger (getType v) = true
    /\ [mkMANPLatticeValue (Some (APInt.mk 1 1)); mkMANPLatticeValue None] =
         [mkMANPLatticeValue (Some p); other].
Proof.
  apply (proj1 (scalar_rules_requirements add_cst_5
                  [mkMANPLatticeValue (Some (APInt.mk 1 1)); mkMANPLatticeValue None]
                  (APInt.mk 9 26))).
  reflexivity.
Defined.

Lemma getPessimisticValueState_seeds_witness :
  exists lv, getPessimisticValueState (OpResult cst_5) = Ok lv
    /\ (forall n, getMANP lv = Some n ->
          n = APInt.mk 1 1
          /\ exists ty argNumber,
               OpResult cst_5 = BlockArgument ty argNumber /\ EncryptedValueType ty)
    /\ ((exists ty argNumber,
           OpResult cst_5 = BlockArgument ty argNumber /\ EncryptedValueType ty) ->
        getMANP lv = Some (APInt.mk 1 1)).
Proof.
  exact (getPessimisticValueState_seeds (OpResult cst_5)).
Defined.

Lemma visitOperation_frame_witness :
  (forall key, key <> (opId add_cst_5, "MANP") ->
     setAttrs (fst (visitOperation isqrt_floor true add_cst_5
                      [mkMANPLatticeValue (Some (APInt.mk 1 1)); mkMANPLatticeValue None]
                      visitedState)) !! key = setAttrs visitedState !! key)
  /\ (forall j, j <> opId add_cst_5 ->
     latticeElements (fst (visitOperation isqrt_floor true add_cst_5
                      [mkMANPLatticeValue (Some (APInt.mk 1 1)); mkMANPLatticeValue None]
                      visitedState)) !! j = latticeElements visitedState !! j)
  /\ (exists more,
        diagnostics (fst (visitOperation isqrt_floor true add_cst_5
                      [mkMANPLatticeValue (Some (APInt.mk 1 1)); mkMANPLatticeValue None]
                      visitedState)) = diagnostics visitedState ++ more
        /\ Forall (fun d => diagOp d = add_cst_5) more).
Proof.
  exact (visitOperation_frame isqrt_floor true add_cst_5
           [mkMANPLatticeValue (Some (APInt.mk 1 1)); mkMANPLatticeValue None]
           visitedState).
Defined.

Lemma visitOperation_debug_only_remarks_witness :
  snd (visitOperation isqrt_floor true add_cst_5
         [mkMANPLatticeValue (Some (APInt.mk 1 1)); mkMANPLatticeValue None] emptyState)
  = snd (visitOperation isqrt_floor false add_cst_5
         [mkMANPLatticeValue (Some (APInt.mk 1 1)); mkMANPLatticeValue None] emptyState)
  /\ latticeElements (fst (visitOperation isqrt_floor true add_cst_5
         [mkMANPLatticeValue (Some (APInt.mk 1 1)); mkMANPLatticeValue None] emptyState))
     = latticeElements (fst (visitOperation isqrt_floor false add_cst_5
         [mkMANPLatticeValue (Some (APInt.mk 1 1)); mkMANPLatticeValue None] emptyState))
  /\ setAttrs (fst (visitOperation isqrt_floor true add_cst_5
         [mkMANPLatticeValue (Some (APInt.mk 1 1)); mkMANPLatticeValue None] emptyState))
     = setAttrs (fst (visitOperation isqrt_floor false add_cst_5
         [mkMANPLatticeValue (Some (APInt.mk 1 1)); mkMANPLatticeValue None] emptyState))
  /\ exists remarks,
       diagnostics (fst (visitOperation isqrt_floor true add_cst_5
         [mkMANPLatticeValue (Some (APInt.mk 1 1)); mkMANPLatticeValue None] emptyState))
       = diagnostics (fst (visitOperation isqrt_floor false add_cst_5
         [mkMANPLatticeValue (Some (APInt.mk 1 1)); mkMANPLatticeValue None] emptyState))
         ++ remarks
       /\ Forall (fun d => diagSeverity d = DiagRemark /\ diagOp d = add_cst_5) remarks.
Proof.
  exact (visitOperation_debug_only_remarks isqrt_floor add_cst_5
           [mkMANPLatticeValue (Some (APInt.mk 1 1)); mkMANPLatticeValue None]
           emptyState).
Defined.

(** * Dot products outside the supported form *)

(** C3, as first stated for every dot with a constant plaintext vector: the
    dot of an operation result with the constant [[1; 2; 3]] has the constant
    operand the claim asks for, and yet the rule returns no bound at all (it
    aborts on its first assertion), so in particular not the bound 14. *)
Lemma getSqMANP_Dot_constant_counterexample :
  getOperands dot_of_result !! 1%nat = Some (OpResult cst_1_2_3)
  /\ dyn_cast_or_null_ConstantOp (getDefiningOp (OpResult cst_1_2_3)) = Some cst_1_2_3
  /\ getAttrOfType_DenseIntElementsAttr cst_1_2_3 "value" =
       Some [APInt.mk 3 1; APInt.mk 3 2; APInt.mk 3 3]
  /\ getSqMANP_Dot dot_of_result [] =
       Abort "Only dot operations with tensors that are function arguments are currently supported"
  /\ ~ (exists r, getSqMANP_Dot dot_of_result [] = Ok r
                  /\ APInt.VAL r = sumOfSquares [1; 2; 3]).
Proof.
  split; [reflexivity|]. split; [reflexivity|]. split; [reflexivity|].
  split; [reflexivity|].
  intros (r & Hr & _). discriminate Hr.
Qed.

(** C4, as first stated for every dot with a dynamic plaintext vector of [n]
    elements: the dot of an operation result with a dynamic vector of four
    8-bit integers returns no bound (it aborts on the first assertion of the
    rule), so not [4 * 255 * 255]; and for [n = 0] the count needs an [APInt]
    of no bits, which the constructor refuses, so the rule returns no bound
    either, not [0]. *)
Lemma getSqMANP_Dot_dynamic_counterexample :
  (getOperands dot_dyn_of_result !! 1%nat =
     Some (BlockArgument (RankedTensorType [4] (IntegerType 8 Signless)) 4)
   /\ getSqMANP_Dot dot_dyn_of_result [] =
        Abort "Only dot operations with tensors that are function arguments are currently supported"
   /\ ~ (exists r, getSqMANP_Dot dot_dyn_of_result [] = Ok r
                   /\ APInt.VAL r = 4 * (maxValue 8 * maxValue 8)))
  /\ (getOperands dot_dyn_0_i8 !! 1%nat =
        Some (BlockArgument (RankedTensorType [0] (IntegerType 8 Signless)) 1)
      /\ getSqMANP_Dot dot_dyn_0_i8 [] = Abort "bitwidth too small"
      /\ ~ (exists r, getSqMANP_Dot dot_dyn_0_i8 [] = Ok r
                      /\ APInt.VAL r = 0 * (maxValue 8 * maxValue 8))).
Proof.
  split.
  - split; [reflexivity|]. split; [reflexivity|].
    intros (r & Hr & _). discriminate Hr.
  - split; [reflexivity|]. split; [reflexivity|].
    intros (r & Hr & _). discriminate Hr.
Qed.
